(** * ai-lead-gen: a shallow embedding of the scraper, the in-memory
    storage, the HTTP handlers and the CSV exporter, with the properties
    stated in the specification.

    Layout: the definitions come first (Python runtime pieces, the regular
    expressions of the scraper, [schemas.py], [gmaps_scraper.py],
    [export.py], [main.py]); the lemmas and theorems follow. *)

From Stdlib Require Import ZArith Ascii String Lia Sorted.
From stdpp Require Import base gmap strings list fin_maps pretty.

(* ===================================================================== *)
(** * Part I: definitions                                                 *)
(* ===================================================================== *)

(** ** Exceptions and fallible computations *)

(** Python exceptions as the handlers see them: [HTTPException] carries a
    status code and a detail, every other [Exception] carries the text that
    [str(e)] yields.  Both are instances of [Exception], so a bare
    [except Exception] catches either. *)
Inductive Exception :=
| Error (msg : string)
| HTTPException (status_code : Z) (detail : string).

(** A call either returns a value or raises. *)
Inductive Res (A : Type) :=
| Ok (a : A)
| Raise (e : Exception).
Arguments Ok {A} a.
Arguments Raise {A} e.

#[global] Instance res_ret : MRet Res := fun A a => Ok a.

#[global] Instance res_bind : MBind Res := fun A B k m =>
  match m with
  | Ok a => k a
  | Raise e => Raise e
  end.

Definition is_ok {A} (m : Res A) : bool :=
  match m with Ok _ => true | Raise _ => false end.

(** ** The parts of the Python runtime and of the web framework that the
    repository calls but does not define. *)
Class PyRuntime := {
  (** the type [float] *)
  float : Type;
  (** [float(s)] on a decimal literal *)
  float_of_str : string -> float;
  (** [bool(x)], that is [x != 0.0] *)
  float_bool : float -> bool;
  (** [repr(x)], used by [csv.writer] and by f-strings *)
  float_repr : float -> string;
  (** [str(e)] of an [HTTPException] *)
  http_exception_str : Z -> string -> string
}.

(** ** Python strings *)
Module PyStr.

Definition code (c : ascii) : N := N_of_ascii c.

(** [c.isdigit()] on the ASCII range, the characters that [\d] accepts. *)
Definition is_digit (c : ascii) : bool :=
  (48 <=? code c)%N && (code c <=? 57)%N.

(** [c.isspace()] on the ASCII range: TAB, LF, VT, FF, CR, FS, GS, RS,
    US and the space. *)
Definition is_space (c : ascii) : bool :=
  ((9 <=? code c)%N && (code c <=? 13)%N)
  || ((28 <=? code c)%N && (code c <=? 32)%N).

Fixpoint take_while (p : ascii -> bool) (s : list ascii) : list ascii :=
  match s with
  | [] => []
  | c :: s' => if p c then c :: take_while p s' else []
  end.

Fixpoint drop_while (p : ascii -> bool) (s : list ascii) : list ascii :=
  match s with
  | [] => []
  | c :: s' => if p c then drop_while p s' else s
  end.

Definition chars (s : string) : list ascii := list_ascii_of_string s.
Definition str (l : list ascii) : string := string_of_list_ascii l.

(** [s.strip()] *)
Definition strip (s : string) : string :=
  str (rev (drop_while is_space (rev (drop_while is_space (chars s))))).

(** [s.replace(c, '')] for a one-character [c] *)
Definition remove_char (c : ascii) (s : string) : string :=
  str (filter (fun x => x ≠ c) (chars s)).

Fixpoint starts_with (p s : list ascii) : bool :=
  match p, s with
  | [], _ => true
  | _ :: _, [] => false
  | a :: p', b :: s' => bool_decide (a = b) && starts_with p' s'
  end.

(** [s.endswith(suffix)] *)
Definition endswith (s suffix : string) : bool :=
  starts_with (rev (chars suffix)) (rev (chars s)).

(** [sub in s] *)
Fixpoint contains_from (sub s : list ascii) : bool :=
  starts_with sub s ||
  match s with
  | [] => false
  | _ :: s' => contains_from sub s'
  end.

Definition contains (sub s : string) : bool :=
  contains_from (chars sub) (chars s).

(** truth value of a [str]: non-empty *)
Definition truthy (s : string) : bool :=
  match s with
  | EmptyString => false
  | String _ _ => true
  end.

(** truth value of an [Optional[str]] *)
Definition opt_truthy (o : option string) : bool :=
  match o with
  | Some s => truthy s
  | None => false
  end.

(** [x or ''] for an [Optional[str]] *)
Definition or_empty (o : option string) : string :=
  match o with
  | Some s => s
  | None => EmptyString
  end.

Definition digit_val (c : ascii) : Z := Z.of_N (code c) - 48.

(** [int(s)] on a run of decimal digits *)
Definition int_of_digits (s : list ascii) : Z :=
  fold_left (fun acc c => 10 * acc + digit_val c)%Z s 0%Z.

(** [str(n)] for an [int] *)
Definition str_of_int (n : Z) : string := pretty n.

End PyStr.

(** ** Regular expressions: the fragment of [re] that the scraper uses.

    A pattern is a sequence of items, each a character class under a
    quantifier.  Matching is greedy with backtracking, as in [re]: a
    quantified item first takes the longest run it can and gives characters
    back one at a time while the rest of the pattern fails. *)
Module Re.

Inductive cclass :=
| Digit                 (* \d *)
| Lit (c : ascii)       (* a literal character *)
| NotLit (c : ascii).   (* [^c] *)

Inductive quant :=
| One                   (* x, once *)
| Opt                   (* x, optional *)
| Star                  (* x, zero or more times *)
| Plus.                 (* x, one or more times *)

Definition item : Type := cclass * quant.
Definition pattern : Type := list item.

Definition accepts (k : cclass) (c : ascii) : bool :=
  match k with
  | Digit => PyStr.is_digit c
  | Lit a => bool_decide (c = a)
  | NotLit a => negb (bool_decide (c = a))
  end.

(** length of the longest prefix of [s] made of characters of class [k] *)
Definition run (k : cclass) (s : list ascii) : nat :=
  length (PyStr.take_while (accepts k) s).

(** fewest and most characters an item may take when [n] are available *)
Definition at_least (q : quant) : nat :=
  match q with
  | One | Plus => 1
  | Opt | Star => 0
  end.

Definition at_most (q : quant) (n : nat) : nat :=
  match q with
  | One | Opt => Nat.min 1 n
  | Star | Plus => n
  end.

(** try [f (lo + gap)], [f (lo + gap - 1)], ..., [f lo] and keep the
    first success *)
Fixpoint first_down {X} (f : nat -> option X) (lo gap : nat) : option X :=
  match f (lo + gap) with
  | Some x => Some x
  | None =>
      match gap with
      | 0 => None
      | S gap' => first_down f lo gap'
      end
  end.

(** match the whole pattern at the start of [s]; the result lists the
    text taken by each item *)
Fixpoint match_here (p : pattern) (s : list ascii)
  : option (list (list ascii)) :=
  match p with
  | [] => Some []
  | (k, q) :: p' =>
      let hi := at_most q (run k s) in
      let lo := at_least q in
      if (hi <? lo)%nat then None
      else
        first_down
          (fun n =>
             match match_here p' (drop n s) with
             | Some ms => Some (take n s :: ms)
             | None => None
             end)
          lo (hi - lo)
  end.

(** [re.search]: the leftmost position at which the pattern matches *)
Fixpoint search_from (p : pattern) (s : list ascii)
  : option (list (list ascii)) :=
  match match_here p s with
  | Some ms => Some ms
  | None =>
      match s with
      | [] => None
      | _ :: s' => search_from p s'
      end
  end.

Definition search (p : pattern) (s : string) : option (list (list ascii)) :=
  search_from p (PyStr.chars s).

(** the text of a group that spans the items from index [from] on *)
Definition group_from (from : nat) (ms : list (list ascii)) : string :=
  PyStr.str (concat (drop from ms)).

Definition lits (s : string) : pattern :=
  map (fun c => (Lit c, One)) (PyStr.chars s).

(** the rating pattern: one or more digits, an optional dot, any number
    of digits, all in group 1 *)
Definition rating_re : pattern :=
  [(Digit, Plus); (Lit "."%char, Opt); (Digit, Star)].

(** the reviews pattern: one or more digits, in group 1 *)
Definition reviews_re : pattern := [(Digit, Plus)].

(** the place pattern: the text [place/] and then group 1, one or more
    characters other than a slash; the group starts at item 6 *)
Definition place_re : pattern :=
  lits "place/" ++ [(NotLit "/"%char, Plus)].

End Re.


(** ** Computations that carry a state and may raise.

    The state reached when an exception is raised is kept: a Python object
    mutated before the [raise] stays mutated in the handler. *)
Definition StE (S A : Type) : Type := S -> Res A * S.

#[global] Instance ste_ret {S} : MRet (StE S) := fun A a s => (Ok a, s).

#[global] Instance ste_bind {S} : MBind (StE S) := fun A B k m s =>
  match m s with
  | (Ok a, s') => k a s'
  | (Raise e, s') => (Raise e, s')
  end.

Definition lift {S A} (r : Res A) : StE S A := fun s => (r, s).

Definition modify {S} (f : S -> S) : StE S unit := fun s => (Ok tt, f s).

Definition get {S} : StE S S := fun s => (Ok s, s).

Definition skip {S} : StE S unit := mret tt.

(** [try: m except Exception: pass] (the source only logs in the handler) *)
Definition try_pass {S} (m : StE S unit) : StE S unit :=
  fun s => (Ok tt, (m s).2).

(** ** models/schemas.py *)
Section Schemas.
Context `{PyRuntime}.

Record Lead := {
  name : string;
  address : option string;
  phone : option string;
  website : option string;
  email : option string;
  rating : option float;
  reviews_count : option Z;
  category : option string;
  google_maps_url : option string;
  place_id : option string;
  coordinates : option (gmap string float)
}.

(** The keyword arguments of a call [Lead(...)]: each keyword is given
    or not. *)
Record LeadKwargs := {
  kw_name : option string;
  kw_address : option string;
  kw_phone : option string;
  kw_website : option string;
  kw_email : option string;
  kw_rating : option float;
  kw_reviews_count : option Z;
  kw_category : option string;
  kw_google_maps_url : option string;
  kw_place_id : option string;
  kw_coordinates : option (gmap string float)
}.


(** The constructor [Lead] called with keyword arguments: [name: str] has no default, so the validation
    fails without it; every other field is declared [Optional[...] = None]. *)
Definition Lead_init (kw : LeadKwargs) : Res Lead :=
  match kw_name kw with
  | None => Raise (Error "1 validation error for Lead: name field required")
  | Some n =>
      Ok {| name := n;
            address := kw_address kw;
            phone := kw_phone kw;
            website := kw_website kw;
            email := kw_email kw;
            rating := kw_rating kw;
            reviews_count := kw_reviews_count kw;
            category := kw_category kw;
            google_maps_url := kw_google_maps_url kw;
            place_id := kw_place_id kw;
            coordinates := kw_coordinates kw |}
  end.

Record ScrapeRequest := {
  query : string;
  location : string;
  max_results : Z
}.

(** [max_results: int = Field(default=50, ge=1, le=200)] *)
Definition ScrapeRequest_valid (r : ScrapeRequest) : Prop :=
  (1 <= max_results r <= 200)%Z.

Record ScrapeResponse := {
  sr_scrape_id : string;
  sr_leads : list Lead;
  sr_total_found : Z;
  sr_status : string
}.

Record EnrichmentRequest := {
  er_scrape_id : string;
  hunter_api_key : string
}.

Record EnrichmentResponse := {
  en_scrape_id : string;
  enriched_leads : list Lead;
  enrichment_count : Z;
  en_status : string
}.

(** [format] is compared with the strings ['csv'] and ['sheets'] by the
    handler; it is kept as the string the handler sees. *)
Record ExportRequest := {
  ex_scrape_id : string;
  format : string;
  filename : option string;
  sheets_url : option string
}.

End Schemas.

(** ** scraper/gmaps_scraper.py *)

(** The CSS selectors the scraper queries. *)
Inductive Selector :=
| SelSearchResults      (* data-value = Search results *)
| SelResultIndex        (* data-result-index *)
| SelBusinessName       (* data-value = Business name *)
| SelAddress            (* data-value = Address *)
| SelRating             (* data-value = Rating *)
| SelReviews            (* data-value = Reviews *)
| SelCategory           (* data-value = Category *)
| SelPhone              (* data-value = Phone number *)
| SelWebsite            (* data-value = Website *)
| SelAnchor.            (* a *)

(** What the browser answers.  Every Playwright call may raise. *)
Record Anchor := {
  get_attribute_href : Res (option string)
}.

Record Node := {
  text_content : Res (option string);
  node_query_selector : Selector -> Res (option Anchor)
}.

(** The page shown after a click on a result. *)
Record DetailPage := {
  page_query_selector : Selector -> Res (option Node);
  page_url : string;
  go_back : Res unit
}.

Record Element := {
  query_selector : Selector -> Res (option Node);
  click : Res DetailPage
}.

(** One browser session; [query_selector_all i] is the answer to the
    query for result elements made in scroll cycle [i]. *)
Record Browser := {
  init_browser : Res unit;
  goto : string -> Res unit;
  wait_for_selector : Selector -> Res unit;
  evaluate_scroll : nat -> Res unit;
  query_selector_all : nat -> Res (list Element);
  close_browser : Res unit
}.

(** The calls [scrape_businesses] makes, in order. *)
Inductive Event :=
| EvInitBrowser
| EvGoto (url : string)
| EvSleep (seconds : nat)
| EvWaitForSelector
| EvScrollResults
| EvQuerySelectorAll
| EvExtract
| EvCloseBrowser.

#[global] Instance Event_eq_dec : EqDecision Event.
Proof. solve_decision. Defined.

Section Scraper.
Context `{PyRuntime}.

(** The dictionary [business_data]: its ten keys are fixed at creation. *)
Record BusinessData := {
  bd_name : string;
  bd_address : option string;
  bd_phone : option string;
  bd_website : option string;
  bd_rating : option float;
  bd_reviews_count : option Z;
  bd_category : option string;
  bd_google_maps_url : option string;
  bd_place_id : option string;
  bd_coordinates : option (gmap string float)
}.

Definition new_business_data (n : string) : BusinessData :=
  {| bd_name := n; bd_address := None; bd_phone := None;
     bd_website := None; bd_rating := None; bd_reviews_count := None;
     bd_category := None; bd_google_maps_url := None;
     bd_place_id := None; bd_coordinates := None |}.

Definition set_address (v : option string) (d : BusinessData) :=
  {| bd_name := bd_name d; bd_address := v; bd_phone := bd_phone d;
     bd_website := bd_website d; bd_rating := bd_rating d;
     bd_reviews_count := bd_reviews_count d; bd_category := bd_category d;
     bd_google_maps_url := bd_google_maps_url d;
     bd_place_id := bd_place_id d; bd_coordinates := bd_coordinates d |}.

Definition set_phone (v : option string) (d : BusinessData) :=
  {| bd_name := bd_name d; bd_address := bd_address d; bd_phone := v;
     bd_website := bd_website d; bd_rating := bd_rating d;
     bd_reviews_count := bd_reviews_count d; bd_category := bd_category d;
     bd_google_maps_url := bd_google_maps_url d;
     bd_place_id := bd_place_id d; bd_coordinates := bd_coordinates d |}.

Definition set_website (v : option string) (d : BusinessData) :=
  {| bd_name := bd_name d; bd_address := bd_address d;
     bd_phone := bd_phone d; bd_website := v; bd_rating := bd_rating d;
     bd_reviews_count := bd_reviews_count d; bd_category := bd_category d;
     bd_google_maps_url := bd_google_maps_url d;
     bd_place_id := bd_place_id d; bd_coordinates := bd_coordinates d |}.

Definition set_rating (v : option float) (d : BusinessData) :=
  {| bd_name := bd_name d; bd_address := bd_address d;
     bd_phone := bd_phone d; bd_website := bd_website d; bd_rating := v;
     bd_reviews_count := bd_reviews_count d; bd_category := bd_category d;
     bd_google_maps_url := bd_google_maps_url d;
     bd_place_id := bd_place_id d; bd_coordinates := bd_coordinates d |}.

Definition set_reviews_count (v : option Z) (d : BusinessData) :=
  {| bd_name := bd_name d; bd_address := bd_address d;
     bd_phone := bd_phone d; bd_website := bd_website d;
     bd_rating := bd_rating d; bd_reviews_count := v;
     bd_category := bd_category d;
     bd_google_maps_url := bd_google_maps_url d;
     bd_place_id := bd_place_id d; bd_coordinates := bd_coordinates d |}.

Definition set_category (v : option string) (d : BusinessData) :=
  {| bd_name := bd_name d; bd_address := bd_address d;
     bd_phone := bd_phone d; bd_website := bd_website d;
     bd_rating := bd_rating d; bd_reviews_count := bd_reviews_count d;
     bd_category := v; bd_google_maps_url := bd_google_maps_url d;
     bd_place_id := bd_place_id d; bd_coordinates := bd_coordinates d |}.

Definition set_google_maps_url (v : option string) (d : BusinessData) :=
  {| bd_name := bd_name d; bd_address := bd_address d;
     bd_phone := bd_phone d; bd_website := bd_website d;
     bd_rating := bd_rating d; bd_reviews_count := bd_reviews_count d;
     bd_category := bd_category d; bd_google_maps_url := v;
     bd_place_id := bd_place_id d; bd_coordinates := bd_coordinates d |}.

Definition set_place_id (v : option string) (d : BusinessData) :=
  {| bd_name := bd_name d; bd_address := bd_address d;
     bd_phone := bd_phone d; bd_website := bd_website d;
     bd_rating := bd_rating d; bd_reviews_count := bd_reviews_count d;
     bd_category := bd_category d;
     bd_google_maps_url := bd_google_maps_url d; bd_place_id := v;
     bd_coordinates := bd_coordinates d |}.

(** [text.strip() if text else None] *)
Definition strip_or_none (text : option string) : option string :=
  if PyStr.opt_truthy text then PyStr.strip <$> text else None.

(** The keyword arguments when [Lead] is called on the unpacked
    [lead_data]: the ten keys of the
    dictionary; [email] is not among them. *)
Definition kwargs_of (d : BusinessData) : LeadKwargs :=
  {| kw_name := Some (bd_name d);
     kw_address := bd_address d;
     kw_phone := bd_phone d;
     kw_website := bd_website d;
     kw_email := None;
     kw_rating := bd_rating d;
     kw_reviews_count := bd_reviews_count d;
     kw_category := bd_category d;
     kw_google_maps_url := bd_google_maps_url d;
     kw_place_id := bd_place_id d;
     kw_coordinates := bd_coordinates d |}.

(** *** [_extract_business_data] *)

Definition Extract (A : Type) : Type := StE BusinessData A.

(** the text of the child of [element] selected by [sel], when there is
    such a child: [None] stands for no child *)
Definition child_text (element : Element) (sel : Selector)
  : Extract (option (option string)) :=
  child ← lift (query_selector element sel);
  match child with
  | Some node => text ← lift (text_content node); mret (Some text)
  | None => mret None
  end.

Definition extract_address (element : Element) : Extract unit :=
  found ← child_text element SelAddress;
  match found with
  | Some address => modify (set_address (strip_or_none address))
  | None => skip
  end.

Definition extract_rating (element : Element) : Extract unit :=
  found ← child_text element SelRating;
  match found with
  | Some rating_text =>
      if PyStr.opt_truthy rating_text then
        match Re.search Re.rating_re (PyStr.or_empty rating_text) with
        | Some rating_match =>
            modify (set_rating
                      (Some (float_of_str (Re.group_from 0 rating_match))))
        | None => skip
        end
      else skip
  | None => skip
  end.

Definition extract_reviews (element : Element) : Extract unit :=
  found ← child_text element SelReviews;
  match found with
  | Some reviews_text =>
      if PyStr.opt_truthy reviews_text then
        match Re.search Re.reviews_re
                (PyStr.remove_char ","%char (PyStr.or_empty reviews_text))
        with
        | Some reviews_match =>
            modify (set_reviews_count
                      (Some (PyStr.int_of_digits
                               (PyStr.chars
                                  (Re.group_from 0 reviews_match)))))
        | None => skip
        end
      else skip
  | None => skip
  end.

Definition extract_category (element : Element) : Extract unit :=
  found ← child_text element SelCategory;
  match found with
  | Some category => modify (set_category (strip_or_none category))
  | None => skip
  end.

(** the inner [try] block: click, read the detail page, go back *)
Definition extract_details (element : Element) : Extract unit :=
  page ← lift (click element);
  phone_element ← lift (page_query_selector page SelPhone);
  match phone_element with
  | Some node =>
      phone ← lift (text_content node);
      modify (set_phone (strip_or_none phone))
  | None => skip
  end;;
  website_element ← lift (page_query_selector page SelWebsite);
  match website_element with
  | Some node =>
      website_link ← lift (node_query_selector node SelAnchor);
      match website_link with
      | Some a =>
          website ← lift (get_attribute_href a);
          modify (set_website website)
      | None => skip
      end
  | None => skip
  end;;
  let current_url := page_url page in
  (if PyStr.contains "place/" current_url then
     modify (set_google_maps_url (Some current_url));;
     match Re.search Re.place_re current_url with
     | Some place_id_match =>
         modify (set_place_id (Some (Re.group_from 6 place_id_match)))
     | None => skip
     end
   else skip);;
  lift (go_back page).

(** everything after [business_data] has been created *)
Definition fill_business_data (element : Element) : Extract unit :=
  extract_address element;;
  extract_rating element;;
  extract_reviews element;;
  extract_category element;;
  try_pass (extract_details element).

Definition _extract_business_data (element : Element)
  : option BusinessData :=
  let attempt : Res (option BusinessData) :=
    name_element ← query_selector element SelBusinessName;
    match name_element with
    | None => mret None
    | Some node =>
        name ← text_content node;
        if negb (PyStr.opt_truthy name) then mret None
        else
          let business_data :=
            new_business_data (PyStr.strip (PyStr.or_empty name)) in
          match fill_business_data element business_data with
          | (Ok _, business_data') => mret (Some business_data')
          | (Raise e, _) => Raise e
          end
    end in
  match attempt with
  | Ok r => r
  | Raise _ => None
  end.

(** *** [scrape_businesses] *)

(** The local variables of [scrape_businesses], and the calls made so
    far by its body. *)
Record ScrapeState := {
  st_leads : list Lead;
  st_processed_places : gset string;
  st_trace : list Event
}.

Definition Scrape (A : Type) : Type := StE ScrapeState A.

Definition log (ev : Event) : Scrape unit :=
  modify (fun st =>
    {| st_leads := st_leads st;
       st_processed_places := st_processed_places st;
       st_trace := st_trace st ++ [ev] |}).

(** [leads.append(lead); processed_places.add(name)] *)
Definition keep (lead : Lead) (key : string) : Scrape unit :=
  modify (fun st =>
    {| st_leads := st_leads st ++ [lead];
       st_processed_places := st_processed_places st ∪ {[ key ]};
       st_trace := st_trace st |}).

(** [len(leads) >= max_results] *)
Definition full (max_results : Z) (st : ScrapeState) : bool :=
  (max_results <=? Z.of_nat (length (st_leads st)))%Z.

(** the body of the inner [for] after its [break] test *)
Definition visit (element : Element) : Scrape unit :=
  log EvExtract;;
  match _extract_business_data element with
  | Some lead_data =>
      st ← get;
      if bool_decide (bd_name lead_data ∈ st_processed_places st)
      then skip
      else
        lead ← lift (Lead_init (kwargs_of lead_data));
        keep lead (bd_name lead_data)
  | None => skip
  end.

(** [for element in business_elements: ...] *)
Fixpoint for_elements (max_results : Z) (business_elements : list Element)
  : Scrape unit :=
  match business_elements with
  | [] => skip
  | element :: rest =>
      st ← get;
      if full max_results st then skip
      else visit element;; for_elements max_results rest
  end.

(** [_scroll_results]: an exception of the page evaluation is logged and
    dropped *)
Definition _scroll_results (b : Browser) (i : nat) : Scrape unit :=
  try_pass (lift (evaluate_scroll b i)).

(** one pass through the body of the outer [for], up to its final
    [break] test: scroll, sleep, query, visit the elements *)
Definition scroll_cycle (b : Browser) (max_results : Z) (i : nat)
  : Scrape unit :=
  log EvScrollResults;;
  _scroll_results b i;;
  log (EvSleep 1);;
  log EvQuerySelectorAll;;
  business_elements ← lift (query_selector_all b i);
  for_elements max_results business_elements.

(** [for i in range(...)]: [n] cycles are left and [i] is the index of
    the next one *)
Fixpoint scroll_cycles (b : Browser) (max_results : Z) (n i : nat)
  : Scrape unit :=
  match n with
  | 0 => skip
  | S n' =>
      scroll_cycle b max_results i;;
      st ← get;
      if full max_results st then skip
      else scroll_cycles b max_results n' (S i)
  end.

(** [range(max_results // 10)] has this many elements *)
Definition cycle_budget (max_results : Z) : nat :=
  Z.to_nat (max_results / 10).

Definition search_url (query location : string) : string :=
  "https://www.google.com/maps/search/" +:+ query +:+ "+" +:+ location.

(** the [try] block of [scrape_businesses] *)
Definition scrape_body (b : Browser) (query location : string)
    (max_results : Z) : Scrape unit :=
  log (EvGoto (search_url query location));;
  lift (goto b (search_url query location));;
  log (EvSleep 2);;
  log EvWaitForSelector;;
  lift (wait_for_selector b SelSearchResults);;
  scroll_cycles b max_results (cycle_budget max_results) 0.

(** [scrape_businesses]: the result and the calls made.  The browser is
    started before the [try]; the [finally] clause closes it, and an
    exception of the closing replaces the outcome of the [try]. *)
Definition scrape_businesses (b : Browser) (query location : string)
    (max_results : Z) : Res (list Lead) * list Event :=
  match init_browser b with
  | Raise e => (Raise e, [EvInitBrowser])
  | Ok _ =>
      let '(r, st) :=
        scrape_body b query location max_results
          {| st_leads := []; st_processed_places := ∅;
             st_trace := [EvInitBrowser] |} in
      let calls := st_trace st ++ [EvCloseBrowser] in
      match close_browser b with
      | Raise e => (Raise e, calls)
      | Ok _ =>
          match r with
          | Ok _ => (Ok (st_leads st), calls)
          | Raise e => (Raise e, calls)
          end
      end
  end.

End Scraper.

(** ** utils/export.py *)

(** The file system and the clock as the exporter sees them: the rows
    written to each path, the timestamp [datetime.now()] formats to, and
    whether a path can be opened for writing. *)
Record World := {
  files : gmap string (list (list string));
  now : string;
  open_for_write : string -> Res unit
}.

Record ExportManager := {
  export_dir : string
}.

Section Exporter.
Context `{PyRuntime}.

(** [os.path.join(a, b)] on POSIX *)
Definition path_join (a b : string) : string :=
  if PyStr.starts_with (PyStr.chars "/") (PyStr.chars b) then b
  else if negb (PyStr.truthy a) || PyStr.endswith a "/" then a +:+ b
  else a +:+ "/" +:+ b.

Definition headers : list string :=
  [ "Name"; "Address"; "Phone"; "Email"; "Website"; "Category"; "Rating";
    "Reviews Count"; "Google Maps URL"; "Place ID"; "Coordinates" ]%string.

(** [coordinates.get(key, '')] inside an f-string *)
Definition coord_text (c : gmap string float) (key : string) : string :=
  match c !! key with
  | Some x => float_repr x
  | None => EmptyString
  end.

(** the local [coords] of the loop: a dictionary is true when it is not
    empty *)
Definition coords_of (lead : Lead) : string :=
  match coordinates lead with
  | Some c =>
      if bool_decide (c = ∅) then EmptyString
      else coord_text c "lat" +:+ "," +:+ coord_text c "lng"
  | None => EmptyString
  end.

(** [lead.rating or ''] as [csv.writer] prints it *)
Definition rating_cell (r : option float) : string :=
  match r with
  | Some x => if float_bool x then float_repr x else EmptyString
  | None => EmptyString
  end.

(** [lead.reviews_count or ''] as [csv.writer] prints it *)
Definition reviews_cell (n : option Z) : string :=
  match n with
  | Some k => if bool_decide (k = 0%Z) then EmptyString
              else PyStr.str_of_int k
  | None => EmptyString
  end.

(** one row; [lead.name or ''] is [lead.name], empty or not *)
Definition row_of (lead : Lead) : list string :=
  [ name lead;
    PyStr.or_empty (address lead);
    PyStr.or_empty (phone lead);
    PyStr.or_empty (email lead);
    PyStr.or_empty (website lead);
    PyStr.or_empty (category lead);
    rating_cell (rating lead);
    reviews_cell (reviews_count lead);
    PyStr.or_empty (google_maps_url lead);
    PyStr.or_empty (place_id lead);
    coords_of lead ].

(** the name under which [export_to_csv] writes *)
Definition csv_filename (w : World) (filename : option string) : string :=
  let chosen :=
    if PyStr.opt_truthy filename then PyStr.or_empty filename
    else "leads_" +:+ now w +:+ ".csv" in
  if PyStr.endswith chosen ".csv" then chosen else chosen +:+ ".csv".

Definition write_rows (path : string) (rows : list (list string))
  : StE World unit :=
  modify (fun w =>
    {| files := <[path := rows]> (files w);
       now := now w;
       open_for_write := open_for_write w |}).

(** [export_to_csv]; its handler logs and raises the same exception
    again *)
Definition export_to_csv (self : ExportManager) (leads : list Lead)
    (filename : option string) : StE World string :=
  w ← get;
  let filepath := path_join (export_dir self) (csv_filename w filename) in
  lift (open_for_write w filepath);;
  write_rows filepath (headers :: map row_of leads);;
  mret filepath.

(** [export_to_sheets]: [sheets_url] is not used *)
Definition export_to_sheets (self : ExportManager) (leads : list Lead)
    (sheets_url : string) : StE World bool :=
  fun w =>
    let csv_filename := "leads_for_sheets_" +:+ now w +:+ ".csv" in
    match export_to_csv self leads (Some csv_filename) w with
    | (Ok _, w') => (Ok true, w')
    | (Raise _, w') => (Ok false, w')
    end.

End Exporter.

(** ** main.py *)

(** The module-level state: [leads_storage] and the world outside the
    process. *)
Section Main.
Context `{PyRuntime}.

Record App := {
  leads_storage : gmap string (list Lead);
  world : World
}.

Definition Handler (A : Type) : Type := StE App A.

Definition exc_str (e : Exception) : string :=
  match e with
  | Error msg => msg
  | HTTPException status_code detail =>
      http_exception_str status_code detail
  end.

(** [try: body except Exception as e:
     raise HTTPException(status_code=500, detail=prefix + str(e))] *)
Definition try_or_500 {A} (prefix : string) (body : Handler A)
  : Handler A :=
  fun app =>
    match body app with
    | (Ok a, app') => (Ok a, app')
    | (Raise e, app') =>
        (Raise (HTTPException 500 (prefix +:+ exc_str e)), app')
    end.

Definition raise {A} (e : Exception) : Handler A := lift (Raise e).

(** [leads_storage[scrape_id] = leads] *)
Definition store (scrape_id : string) (leads : list Lead) : Handler unit :=
  modify (fun app =>
    {| leads_storage := <[scrape_id := leads]> (leads_storage app);
       world := world app |}).

(** run an exporter call on the world of the application *)
Definition in_world {A} (m : StE World A) : Handler A :=
  fun app =>
    let '(r, w') := m (world app) in
    (r, {| leads_storage := leads_storage app; world := w' |}).

Definition not_found {A} : Handler A :=
  raise (HTTPException 404 "Scrape ID not found").

(** [POST /scrape]; [b] is the browser session of this request and
    [uuid4] the identifier that [uuid.uuid4()] generates *)
Definition scrape_leads_body (b : Browser) (uuid4 : string)
    (request : ScrapeRequest) : Handler ScrapeResponse :=
  leads ← lift (scrape_businesses b (query request) (location request)
                   (max_results request)).1;
  let scrape_id := uuid4 in
  store scrape_id leads;;
  mret {| sr_scrape_id := scrape_id;
          sr_leads := leads;
          sr_total_found := Z.of_nat (length leads);
          sr_status := "success" |}.

Definition scrape_leads (b : Browser) (uuid4 : string)
    (request : ScrapeRequest) : Handler ScrapeResponse :=
  try_or_500 "Scraping failed: " (scrape_leads_body b uuid4 request).

(** [POST /enrich]; [enricher] is [HunterEnrichment.enrich_leads], which
    lives outside this module *)
Definition enrich_leads_body
    (enricher : list Lead -> string -> Res (list Lead))
    (request : EnrichmentRequest) : Handler EnrichmentResponse :=
  app ← get;
  match leads_storage app !! er_scrape_id request with
  | None => not_found
  | Some leads =>
      enriched ← lift (enricher leads (hunter_api_key request));
      store (er_scrape_id request) enriched;;
      mret {| en_scrape_id := er_scrape_id request;
              enriched_leads := enriched;
              enrichment_count :=
                Z.of_nat (length (filter
                  (fun lead => PyStr.opt_truthy (email lead) = true)
                  enriched));
              en_status := "success" |}
  end.

Definition enrich_leads
    (enricher : list Lead -> string -> Res (list Lead))
    (request : EnrichmentRequest) : Handler EnrichmentResponse :=
  try_or_500 "Enrichment failed: " (enrich_leads_body enricher request).

(** the JSON object an export answers with *)
Record ExportResult := {
  message : string;
  file_path : option string
}.

(** [POST /export] *)
Definition export_leads_body (export_manager : ExportManager)
    (request : ExportRequest) : Handler ExportResult :=
  app ← get;
  match leads_storage app !! ex_scrape_id request with
  | None => not_found
  | Some leads =>
      if String.eqb (format request) "csv" then
        path ← in_world
                 (export_to_csv export_manager leads (filename request));
        mret {| message := "Exported to " +:+ path;
                file_path := Some path |}
      else if String.eqb (format request) "sheets" then
        if negb (PyStr.opt_truthy (sheets_url request)) then
          raise (HTTPException 400 "Google Sheets URL required")
        else
          success ← in_world
                      (export_to_sheets export_manager leads
                         (PyStr.or_empty (sheets_url request)));
          if success : bool then
            mret {| message := "Successfully exported to Google Sheets";
                    file_path := None |}
          else
            raise (HTTPException 500 "Failed to export to Google Sheets")
      else
        raise (HTTPException 400 "Invalid export format")
  end.

Definition export_leads (export_manager : ExportManager)
    (request : ExportRequest) : Handler ExportResult :=
  try_or_500 "Export failed: " (export_leads_body export_manager request).

(** the JSON object [GET /leads/{scrape_id}] answers with *)
Record LeadsResult := {
  lr_scrape_id : string;
  lr_leads : list Lead;
  lr_total : Z
}.

(** [GET /leads/{scrape_id}] *)
Definition get_leads (scrape_id : string) : Handler LeadsResult :=
  app ← get;
  match leads_storage app !! scrape_id with
  | None => not_found
  | Some leads =>
      mret {| lr_scrape_id := scrape_id;
              lr_leads := leads;
              lr_total := Z.of_nat (length leads) |}
  end.

(** [DELETE /leads/{scrape_id}] *)
Definition delete_leads (scrape_id : string) : Handler string :=
  app ← get;
  match leads_storage app !! scrape_id with
  | None => not_found
  | Some _ =>
      modify (fun app =>
        {| leads_storage := delete scrape_id (leads_storage app);
           world := world app |});;
      mret "Leads deleted successfully"%string
  end.

(** *** Sequences of requests *)

(** a request to one of the endpoints that read or write
    [leads_storage], with what the outside supplies to its handling *)
Inductive Request :=
| PostScrape (b : Browser) (uuid4 : string) (request : ScrapeRequest)
| PostEnrich (enricher : list Lead -> string -> Res (list Lead))
             (request : EnrichmentRequest)
| PostExport (export_manager : ExportManager) (request : ExportRequest)
| GetLeads (scrape_id : string)
| DeleteLeads (scrape_id : string).

(** the state of the application after a request was handled *)
Definition handle (rq : Request) (app : App) : App :=
  match rq with
  | PostScrape b uuid4 request => (scrape_leads b uuid4 request app).2
  | PostEnrich enricher request => (enrich_leads enricher request app).2
  | PostExport export_manager request =>
      (export_leads export_manager request app).2
  | GetLeads scrape_id => (get_leads scrape_id app).2
  | DeleteLeads scrape_id => (delete_leads scrape_id app).2
  end.

Definition handle_all (rqs : list Request) (app : App) : App :=
  foldl (fun app rq => handle rq app) app rqs.

(** the request is no enrich or delete on [scrape_id], and no scrape that
    generates [scrape_id] again *)
Definition leaves (scrape_id : string) (rq : Request) : Prop :=
  match rq with
  | PostScrape _ uuid4 _ => uuid4 ≠ scrape_id
  | PostEnrich _ request => er_scrape_id request ≠ scrape_id
  | DeleteLeads sid => sid ≠ scrape_id
  | PostExport _ _ | GetLeads _ => True
  end.

End Main.

(** ** The specification's reading of the two number extractions, written
    without regular expressions, to compare with the source's. *)
Module Spec.

Definition not_digit (c : ascii) : bool := negb (PyStr.is_digit c).


(** the first integer in [s]: the first maximal run of digits *)
Definition first_integer (s : list ascii) : option (list ascii) :=
  match PyStr.drop_while not_digit s with
  | [] => None
  | s1 => Some (PyStr.take_while PyStr.is_digit s1)
  end.




(** the calls of one scroll cycle that visits [k] elements *)
Definition cycle_calls (k : nat) : list Event :=
  [EvScrollResults; EvSleep 1; EvQuerySelectorAll] ++ replicate k EvExtract.

Definition cycles_calls (ks : list nat) : list Event :=
  concat (map cycle_calls ks).

(** the calls before the loop *)
Definition setup_calls (query location : string) : list Event :=
  [EvInitBrowser; EvGoto (search_url query location); EvSleep 2;
   EvWaitForSelector].

End Spec.


(** ** A concrete runtime and a scripted browser, to run the definitions. *)
Module Demo.

(** floats kept as the decimal literal they are written with *)
Definition literal_runtime : PyRuntime :=
  {| float := string;
     float_of_str := fun s => s;
     float_bool := fun s =>
       existsb (fun c => PyStr.is_digit c && negb (bool_decide (c = "0"%char)))
               (PyStr.chars s);
     float_repr := fun s => s;
     http_exception_str := fun code detail =>
       PyStr.str_of_int code +:+ ": " +:+ detail |}.

Definition text_node (text : string) : Node :=
  {| text_content := Ok (Some text);
     node_query_selector := fun _ => Ok None |}.

(** a result element with a name, a rating text and a reviews text; the
    click on it fails *)
Definition listing (name rating reviews : string) : Element :=
  {| query_selector := fun sel =>
       match sel with
       | SelBusinessName => Ok (Some (text_node name))
       | SelRating => Ok (Some (text_node rating))
       | SelReviews => Ok (Some (text_node reviews))
       | _ => Ok None
       end;
     click := Raise (Error "element is detached") |}.

(** the detail page of a place: a phone number, a website link and the
    address of the page; going back fails *)
Definition detail_page : DetailPage :=
  {| page_query_selector := fun sel =>
       match sel with
       | SelPhone => Ok (Some (text_node " 06 1234 "))
       | SelWebsite =>
           Ok (Some
                 {| text_content := Ok (Some "Website"%string);
                    node_query_selector := fun _ =>
                      Ok (Some {| get_attribute_href :=
                                    Ok (Some "https://uno.example"%string) |})
                 |})
       | _ => Ok None
       end;
     page_url := "https://www.google.com/maps/place/Cafe+Uno/@41.9,12.5";
     go_back := Raise (Error "navigation failed") |}.

(** a result element with an address, a category and a detail page *)
Definition detailed : Element :=
  {| query_selector := fun sel =>
       match sel with
       | SelBusinessName => Ok (Some (text_node "Cafe Uno"))
       | SelAddress => Ok (Some (text_node " Via Roma 1 "))
       | SelCategory => Ok (Some (text_node "Cafe"))
       | _ => Ok None
       end;
     click := Ok detail_page |}.

(** a result element without a name child *)
Definition nameless : Element :=
  {| query_selector := fun _ => Ok None;
     click := Raise (Error "element is detached") |}.

(** a browser in which every call succeeds and cycle [i] shows
    [pages !! i] *)
Definition browser (pages : list (list Element)) : Browser :=
  {| init_browser := Ok tt;
     goto := fun _ => Ok tt;
     wait_for_selector := fun _ => Ok tt;
     evaluate_scroll := fun _ => Ok tt;
     query_selector_all := fun i => Ok (default [] (pages !! i));
     close_browser := Ok tt |}.

Definition cafes : list Element :=
  [ listing "Cafe Uno" "4.5 stars" "1,234 reviews";
    listing "Cafe Uno" "4.5 stars" "1,234 reviews";
    nameless;
    listing "  Bar Dos " "no rating" "(12)" ].

Definition outside : World :=
  {| files := ∅;
     now := "20240101_120000";
     open_for_write := fun path =>
       if PyStr.contains "readonly" path
       then Raise (Error "Permission denied") else Ok tt |}.

Definition manager : ExportManager := {| export_dir := "exports" |}.

(** an export directory that cannot be written to *)
Definition locked_manager : ExportManager :=
  {| export_dir := "readonly" |}.

(** the float written [s] *)
Definition lit (s : string) : @float literal_runtime := s.

(** the two leads that a scrape of [cafes] yields *)
Definition uno : @Lead literal_runtime :=
  {| name := "Cafe Uno"; address := None; phone := None; website := None;
     email := None; rating := Some (lit "4.5");
     reviews_count := Some 1234%Z; category := None;
     google_maps_url := None; place_id := None; coordinates := None |}.

Definition dos : @Lead literal_runtime :=
  {| name := "Bar Dos"; address := None; phone := None; website := None;
     email := None; rating := None;
     reviews_count := Some 12%Z; category := None;
     google_maps_url := None; place_id := None; coordinates := None |}.

Definition cafe_leads : list (@Lead literal_runtime) := [uno; dos].

Definition cafe_request (max_results : Z) : ScrapeRequest :=
  {| query := "cafe"; location := "Rome"; max_results := max_results |}.

(** the application right after start, and with one stored batch *)
Definition fresh_app : @App literal_runtime :=
  {| leads_storage := ∅; world := outside |}.

Definition cafe_app : @App literal_runtime :=
  {| leads_storage := {[ "id-1"%string := cafe_leads ]};
     world := outside |}.

Definition sheets_request : ExportRequest :=
  {| ex_scrape_id := "id-1"; format := "sheets"; filename := None;
     sheets_url := Some "https://docs.google.com/spreadsheets/d/1"%string |}.

End Demo.

(** ** Notions used to state the properties *)

(** [m] keeps the property [P] of the state, whether it returns or raises *)
Definition preserves {S A} (P : S -> Prop) (m : StE S A) : Prop :=
  ∀ s, P s → P (m s).2.

Section ScraperNotions.
Context `{PyRuntime}.

(** the lead built from a dictionary of business data *)
Definition lead_of (d : BusinessData) : Lead :=
  {| name := bd_name d;
     address := bd_address d;
     phone := bd_phone d;
     website := bd_website d;
     email := None;
     rating := bd_rating d;
     reviews_count := bd_reviews_count d;
     category := bd_category d;
     google_maps_url := bd_google_maps_url d;
     place_id := bd_place_id d;
     coordinates := bd_coordinates d |}.

(** the names of the leads are pairwise distinct and all in the set *)
Definition names_tracked (st : ScrapeState) : Prop :=
  NoDup (name <$> st_leads st) ∧
  ∀ n, n ∈ name <$> st_leads st → n ∈ st_processed_places st.

(** [lead] was extracted from an element that the browser [b] showed *)
Definition scraped_from (b : Browser) (lead : Lead) : Prop :=
  ∃ i elements element d,
    query_selector_all b i = Ok elements ∧
    element ∈ elements ∧
    _extract_business_data element = Some d ∧
    lead = lead_of d.

(** [element] has a name child whose text is [text], not empty *)
Definition has_name_text (element : Element) (text : string) : Prop :=
  ∃ node,
    query_selector element SelBusinessName = Ok (Some node) ∧
    text_content node = Ok (Some text) ∧
    text ≠ EmptyString.

(** the state after [log ev] *)
Definition logged (ev : Event) (st : ScrapeState) : ScrapeState :=
  {| st_leads := st_leads st;
     st_processed_places := st_processed_places st;
     st_trace := st_trace st ++ [ev] |}.

End ScraperNotions.

(** ** Further notions for the scraper *)
Section ScrapeOutcome.
Context `{PyRuntime}.

(** the records that the elements yield, in the order of the elements *)
Definition records_of (elements : list Element) : list BusinessData :=
  omap _extract_business_data elements.

(** the elements shown in the cycles [0 .. n-1] when cycle [i] shows
    [pages i] *)
Definition shown (pages : nat -> list Element) (n : nat) : list Element :=
  flat_map pages (seq 0 n).

(** the leads of the records whose name is not in [seen] and did not occur
    earlier in the list *)
Fixpoint first_by_name (seen : gset string) (ds : list BusinessData)
  : list Lead :=
  match ds with
  | [] => []
  | d :: ds' =>
      if bool_decide (bd_name d ∈ seen) then first_by_name seen ds'
      else lead_of d :: first_by_name (seen ∪ {[ bd_name d ]}) ds'
  end.

(** the same with room for at most [room] leads *)
Fixpoint collect (room : nat) (seen : gset string) (ds : list BusinessData)
  : list Lead :=
  match ds with
  | [] => []
  | d :: ds' =>
      match room with
      | 0 => []
      | S room' =>
          if bool_decide (bd_name d ∈ seen) then collect room seen ds'
          else lead_of d :: collect room' (seen ∪ {[ bd_name d ]}) ds'
      end
  end.

(** the room left in a state: how many leads may still be appended *)
Definition room_of (max_results : Z) (st : ScrapeState) : nat :=
  Z.to_nat max_results - length (st_leads st).

(** the state in which the loop starts *)
Definition loop_start (query location : string) : ScrapeState :=
  {| st_leads := []; st_processed_places := ∅;
     st_trace := Spec.setup_calls query location |}.



(** the place id of [d] is cut out of its map URL, and the map URL holds
    the text [place/] *)
Definition place_id_cut (d : BusinessData) : Prop :=
  (∀ p, bd_place_id d = Some p →
        ∃ u before rest,
          bd_google_maps_url d = Some u ∧
          PyStr.chars u = before ++ PyStr.chars "place/" ++ rest ∧
          p = PyStr.str
                (PyStr.take_while (λ c, negb (bool_decide (c = "/"%char)))
                   rest) ∧
          p ≠ EmptyString) ∧
  (∀ u, bd_google_maps_url d = Some u →
        PyStr.contains "place/" u = true).


End ScrapeOutcome.

(** the elements that the query of cycle [i] returns, none when it raises *)
Definition page_of (b : Browser) (i : nat) : list Element :=
  match query_selector_all b i with
  | Ok elements => elements
  | Raise _ => []
  end.

(** [m] started in a state with [Pre] ends, returning or raising, in a
    state with [Post] *)
Definition establishes {S A} (Pre Post : S -> Prop) (m : StE S A) : Prop :=
  ∀ s, Pre s → Post (m s).2.

(** ** Further notions for the handlers *)
Section MainNotions.
Context `{PyRuntime}.

(** the identifier that handling [rq] may add to [leads_storage] *)
Definition added_by (rq : Request) : gset string :=
  match rq with
  | PostScrape _ uuid4 _ => {[ uuid4 ]}
  | _ => ∅
  end.

(** [rq] is no [DELETE] *)
Definition keeps_keys (rq : Request) : Prop :=
  match rq with
  | DeleteLeads _ => False
  | _ => True
  end.

(** [len([lead for lead in leads if lead.email])] *)
Definition with_email (leads : list Lead) : list Lead :=
  filter (fun lead => PyStr.opt_truthy (email lead) = true) leads.

End MainNotions.

(** ** More of Python's strings *)
Module PyText.

(** [s.replace(old, new)] for an [old] that is not empty, from left to
    right: at an occurrence of [old] the text [new] is put out and the rest
    of the occurrence, [skip] characters, is passed over *)
Fixpoint replace_from (old new : list ascii) (skip : nat) (s : list ascii)
  : list ascii :=
  match s with
  | [] => []
  | c :: s' =>
      match skip with
      | S k => replace_from old new k s'
      | 0 =>
          if PyStr.starts_with old s
          then new ++ replace_from old new (length old - 1) s'
          else c :: replace_from old new 0 s'
      end
  end.

Definition replace (old new s : string) : string :=
  PyStr.str (replace_from (PyStr.chars old) (PyStr.chars new) 0
               (PyStr.chars s)).

(** [s.startswith(prefix)] *)
Definition startswith (s prefix : string) : bool :=
  PyStr.starts_with (PyStr.chars prefix) (PyStr.chars s).

(** [len(s)] *)
Definition len (s : string) : Z := Z.of_nat (length (PyStr.chars s)).

End PyText.

(** ** utils/export.py, the other exporters *)
Section MoreExporters.
Context `{PyRuntime}.

(** the name under which [export_to_excel] asks [export_to_csv] to write *)
Definition excel_csv_filename (w : World) (filename : option string)
  : string :=
  let chosen :=
    if PyStr.opt_truthy filename then PyStr.or_empty filename
    else "leads_" +:+ now w +:+ ".xlsx" in
  let with_extension :=
    if PyStr.endswith chosen ".xlsx" then chosen else chosen +:+ ".xlsx" in
  PyText.replace ".xlsx" ".csv" with_extension.

(** [export_to_excel]: no workbook is written, the leads go to a CSV file;
    its handler logs and raises the same exception again *)
Definition export_to_excel (self : ExportManager) (leads : list Lead)
    (filename : option string) : StE World string :=
  w ← get;
  export_to_csv self leads (Some (excel_csv_filename w filename)).

(** the values of the dictionary that [export_to_json] builds for a lead *)
Inductive Value :=
| VNone
| VStr (s : string)
| VInt (n : Z)
| VFloat (x : float)
| VDict (d : gmap string float).

Definition opt_value {A} (f : A -> Value) (o : option A) : Value :=
  match o with
  | Some a => f a
  | None => VNone
  end.

(** [lead_dict], with its keys in the order of the source *)
Definition lead_dict (lead : Lead) : list (string * Value) :=
  [ ("name", VStr (name lead));
    ("address", opt_value VStr (address lead));
    ("phone", opt_value VStr (phone lead));
    ("email", opt_value VStr (email lead));
    ("website", opt_value VStr (website lead));
    ("category", opt_value VStr (category lead));
    ("rating", opt_value VFloat (rating lead));
    ("reviews_count", opt_value VInt (reviews_count lead));
    ("google_maps_url", opt_value VStr (google_maps_url lead));
    ("place_id", opt_value VStr (place_id lead));
    ("coordinates", opt_value VDict (coordinates lead)) ]%string.

(** the keys of every [lead_dict] *)
Definition lead_dict_keys : list string :=
  [ "name"; "address"; "phone"; "email"; "website"; "category"; "rating";
    "reviews_count"; "google_maps_url"; "place_id"; "coordinates" ]%string.

(** the file system as [export_to_json] sees it: a file holds the list
    handed to [json.dump] *)
Record JsonWorld := {
  json_files : gmap string (list (list (string * Value)));
  json_now : string;
  json_open_for_write : string -> Res unit
}.

(** the name under which [export_to_json] writes *)
Definition json_filename (w : JsonWorld) (filename : option string)
  : string :=
  let chosen :=
    if PyStr.opt_truthy filename then PyStr.or_empty filename
    else "leads_" +:+ json_now w +:+ ".json" in
  if PyStr.endswith chosen ".json" then chosen else chosen +:+ ".json".

(** [export_to_json]; its handler logs and raises the same exception
    again *)
Definition export_to_json (self : ExportManager) (leads : list Lead)
    (filename : option string) : StE JsonWorld string :=
  w ← get;
  let filepath := path_join (export_dir self) (json_filename w filename) in
  let leads_data := map lead_dict leads in
  lift (json_open_for_write w filepath);;
  modify (fun w =>
    {| json_files := <[filepath := leads_data]> (json_files w);
       json_now := json_now w;
       json_open_for_write := json_open_for_write w |});;
  mret filepath.

End MoreExporters.

(** ** utils/export.py, the summary and the validation *)

(** a number that is an [int] on one path and a [float] on another *)
Inductive Num `{PyRuntime} :=
| NInt (n : Z)
| NFloat (x : float).

Section Reports.
Context `{PyRuntime}.

(** [round((num / den) * 100, 2)] for two [int]s, computed in floating
    point by the runtime *)
Variable percent : Z -> Z -> float.

(** [round(sum(xs) / len(xs), 2)] for a list of floats that is not empty *)
Variable rounded_mean : list float -> float.

(** [re.match(email_pattern, s)]: the pattern is cut off in the source
    after the part for the top-level domain, so the match is taken as
    given *)
Variable email_matches : string -> bool.

(** *** [get_export_summary] *)

(** [len([l for l in leads if l.<field>])] for a field of type
    [Optional[str]] *)
Definition count_with (field : Lead -> option string) (leads : list Lead)
  : Z :=
  Z.of_nat (length (filter (fun l => PyStr.opt_truthy (field l) = true)
                      leads)).

(** [categories[c] = categories.get(c, 0) + 1] *)
Definition count_category (categories : gmap string Z) (c : string)
  : gmap string Z :=
  <[c := (default 0 (categories !! c) + 1)%Z]> categories.

(** the loop over the leads that fills [categories] *)
Definition count_categories (leads : list Lead) : gmap string Z :=
  foldl (fun categories lead =>
           if PyStr.opt_truthy (category lead)
           then count_category categories (PyStr.or_empty (category lead))
           else categories)
        ∅ leads.

(** [round(..., 2) if total_leads > 0 else 0] *)
Definition coverage (part total : Z) : Num :=
  if (0 <? total)%Z then NFloat (percent part total) else NInt 0.

Record Summary := {
  sm_total_leads : Z;
  sm_leads_with_email : Z;
  sm_leads_with_phone : Z;
  sm_leads_with_website : Z;
  sm_email_coverage : Num;
  sm_phone_coverage : Num;
  sm_website_coverage : Num;
  sm_average_rating : Num;
  sm_categories : gmap string Z
}.

(** [get_export_summary]; no step of its [try] block can raise *)
Definition get_export_summary (leads : list Lead) : Summary :=
  let total_leads := Z.of_nat (length leads) in
  let leads_with_email := count_with email leads in
  let leads_with_phone := count_with phone leads in
  let leads_with_website := count_with website leads in
  let ratings := omap rating leads in
  {| sm_total_leads := total_leads;
     sm_leads_with_email := leads_with_email;
     sm_leads_with_phone := leads_with_phone;
     sm_leads_with_website := leads_with_website;
     sm_email_coverage := coverage leads_with_email total_leads;
     sm_phone_coverage := coverage leads_with_phone total_leads;
     sm_website_coverage := coverage leads_with_website total_leads;
     sm_average_rating :=
       match ratings with
       | [] => NInt 0
       | _ :: _ => NFloat (rounded_mean ratings)
       end;
     sm_categories := count_categories leads |}.

(** *** [validate_leads_data] *)

(** [re.sub] with the pattern for every character that is neither a digit
    nor a plus sign, and the empty replacement *)
Definition phone_clean (phone : string) : string :=
  PyStr.str (filter (fun c => PyStr.is_digit c = true ∨ c = "+"%char)
               (PyStr.chars phone)).

Definition website_plausible (w : string) : bool :=
  PyText.startswith w "http://" || PyText.startswith w "https://"
  || PyStr.contains "." w.

(** the list [lead_issues] built for one lead *)
Definition lead_issues (lead : Lead) : list string :=
  (if negb (PyStr.truthy (name lead)) then ["Missing name"%string] else [])
  ++ (if PyStr.opt_truthy (email lead)
      then if email_matches (PyStr.or_empty (email lead)) then []
           else ["Invalid email format"%string]
      else [])
  ++ (if PyStr.opt_truthy (phone lead)
      then if (PyText.len (phone_clean (PyStr.or_empty (phone lead))) <? 10)%Z
           then ["Phone number too short"%string] else []
      else [])
  ++ (if PyStr.opt_truthy (website lead)
      then if website_plausible (PyStr.or_empty (website lead)) then []
           else ["Invalid website URL"%string]
      else []).

Record Issue := {
  lead_index : nat;
  lead_name : string;
  issue_texts : list string
}.

(** the loop [for i, lead in enumerate(leads)], from index [i] on *)
Fixpoint issues_from (i : nat) (leads : list Lead) : list Issue :=
  match leads with
  | [] => []
  | lead :: rest =>
      match lead_issues lead with
      | [] => issues_from (S i) rest
      | texts =>
          {| lead_index := i; lead_name := name lead; issue_texts := texts |}
          :: issues_from (S i) rest
      end
  end.

Record Validation := {
  vr_total_leads : Z;
  vr_leads_with_issues : Z;
  vr_issues : list Issue;
  vr_data_quality_score : Num
}.

(** [validate_leads_data]; no step of its [try] block can raise *)
Definition validate_leads_data (leads : list Lead) : Validation :=
  let issues := issues_from 0 leads in
  {| vr_total_leads := Z.of_nat (length leads);
     vr_leads_with_issues := Z.of_nat (length issues);
     vr_issues := issues;
     vr_data_quality_score :=
       match leads with
       | [] => NInt 0
       | _ :: _ =>
           NFloat (percent (Z.of_nat (length leads) - Z.of_nat (length issues))
                     (Z.of_nat (length leads)))
       end |}.

End Reports.

(** ** scraper/gmaps_scraper.py, [get_business_details] *)

(** One browser session on the page of a place: the calls of [browser] to
    start, navigate and close, and the answer to the query for the
    opening hours. *)
Record PlaceSession := {
  place_browser : Browser;
  query_hours : Res (option Node)
}.

Section PlaceDetails.

Definition place_url (place_id : string) : string :=
  "https://www.google.com/maps/place/" +:+ place_id.

(** the [try] block: the dictionary [details], with the key [hours] when
    the page has an element for the hours *)
Definition read_details (s : PlaceSession) (place_id : string)
  : Res (gmap string (option string)) :=
  _ ← goto (place_browser s) (place_url place_id);
  hours_element ← query_hours s;
  match hours_element with
  | Some node =>
      hours_text ← text_content node;
      mret ({[ "hours"%string := strip_or_none hours_text ]}
              : gmap string (option string))
  | None => mret (∅ : gmap string (option string))
  end.

(** [get_business_details]: the result and the calls made.  The browser is
    started before the [try]; the handler turns every exception of the
    [try] block into [None]; the [finally] clause closes the browser, and
    an exception of the closing replaces the outcome. *)
Definition get_business_details (s : PlaceSession) (place_id : string)
  : Res (option (gmap string (option string))) * list Event :=
  match init_browser (place_browser s) with
  | Raise e => (Raise e, [EvInitBrowser])
  | Ok _ =>
      let outcome :=
        match read_details s place_id with
        | Ok details => Some details
        | Raise _ => None
        end in
      let calls :=
        [EvInitBrowser; EvGoto (place_url place_id)]
        ++ (if is_ok (goto (place_browser s) (place_url place_id))
            then [EvSleep 2] else [])
        ++ [EvCloseBrowser] in
      match close_browser (place_browser s) with
      | Raise e => (Raise e, calls)
      | Ok _ => (Ok outcome, calls)
      end
  end.

End PlaceDetails.

(** the number of leads whose category is [c] *)
Definition category_count `{PyRuntime} (c : string) (leads : list Lead)
  : nat :=
  length (filter (fun l => category l = Some c) leads).

(** ** More sample inputs *)
Module Sample.

(** a result element whose name text is white space only *)
Definition blank : Element := Demo.listing "   " "4.5 stars" "12".

(** a place page that shows opening hours *)
Definition place : PlaceSession :=
  {| place_browser := Demo.browser [];
     query_hours := Ok (Some (Demo.text_node " 9-17 ")) |}.

(** the lead [Demo.dos] with an email address *)
Definition dos_with_email : @Lead Demo.literal_runtime :=
  {| name := "Bar Dos"; address := None; phone := None; website := None;
     email := Some "info@dos.example"%string; rating := None;
     reviews_count := Some 12%Z; category := Some "Bar"%string;
     google_maps_url := None; place_id := None; coordinates := None |}.

(** an enricher that finds an email for [Demo.dos] only *)
Definition enricher (leads : list (@Lead Demo.literal_runtime))
    (key : string) : Res (list (@Lead Demo.literal_runtime)) :=
  Ok (map (fun lead =>
             if String.eqb (name lead) "Bar Dos" then dos_with_email
             else lead)
          leads).

Definition enrich_request : EnrichmentRequest :=
  {| er_scrape_id := "id-1"; hunter_api_key := "key" |}.

Definition csv_request : ExportRequest :=
  {| ex_scrape_id := "id-1"; format := "csv";
     filename := Some "out"%string; sheets_url := None |}.

(** a lead with an empty name, a short phone number and a website without
    a dot *)
Definition poor : @Lead Demo.literal_runtime :=
  {| name := EmptyString; address := None;
     phone := Some "+39 06 12"%string; website := Some "localhost"%string;
     email := None; rating := None; reviews_count := None;
     category := None; google_maps_url := None; place_id := None;
     coordinates := None |}.

(** stand-ins for the floating-point arithmetic: the quotient and the
    mean are kept as the text of the operation *)
Definition percent (part total : Z) : @float Demo.literal_runtime :=
  Demo.lit (PyStr.str_of_int part +:+ "/" +:+ PyStr.str_of_int total).

Definition rounded_mean (xs : list (@float Demo.literal_runtime))
  : @float Demo.literal_runtime :=
  Demo.lit ("mean of " +:+ PyStr.str_of_int (Z.of_nat (length xs))).

(** an email is taken to match when it holds an at sign *)
Definition email_matches (s : string) : bool := PyStr.contains "@" s.

(** the file system of the JSON exporter at start *)
Definition json_outside : @JsonWorld Demo.literal_runtime :=
  {| json_files := ∅;
     json_now := "20240101_120000";
     json_open_for_write := fun _ => Ok tt |}.

End Sample.

(* ===================================================================== *)
(** * Part II: lemmas and theorems                                        *)
(* ===================================================================== *)

(** ** State-and-exception computations *)
Section StEFacts.
Context {S : Type}.
Implicit Types P : S -> Prop.

Lemma ste_bind_eq {A B} (m : StE S A) (k : A -> StE S B) s :
  (m ≫= k) s =
  match m s with
  | (Ok a, s') => k a s'
  | (Raise e, s') => (Raise e, s')
  end.
Proof. reflexivity. Qed.

Lemma ste_bind_fun {A B} (m : StE S A) (k : A -> StE S B) :
  m ≫= k =
  fun s => match m s with
           | (Ok a, s') => k a s'
           | (Raise e, s') => (Raise e, s')
           end.
Proof. reflexivity. Qed.

Lemma preserves_ret {A} P (a : A) : preserves P (mret a : StE S A).
Proof. intros s Hs. exact Hs. Qed.

Lemma preserves_skip P : preserves P (skip : StE S unit).
Proof. intros s Hs. exact Hs. Qed.

Lemma preserves_lift {A} P (r : Res A) : preserves P (lift r : StE S A).
Proof. intros s Hs. exact Hs. Qed.

Lemma preserves_get P : preserves P (get : StE S S).
Proof. intros s Hs. exact Hs. Qed.

Lemma preserves_modify P (f : S -> S) :
  (∀ s, P s → P (f s)) → preserves P (modify f).
Proof. intros Hf s Hs. apply Hf, Hs. Qed.

Lemma preserves_bind {A B} P (m : StE S A) (k : A -> StE S B) :
  preserves P m → (∀ a, preserves P (k a)) → preserves P (m ≫= k).
Proof.
  intros Hm Hk s Hs. rewrite ste_bind_eq.
  specialize (Hm s Hs). destruct (m s) as [[a|e] s']; simpl in *.
  - apply Hk, Hm.
  - exact Hm.
Qed.

Lemma preserves_try_pass P (m : StE S unit) :
  preserves P m → preserves P (try_pass m).
Proof. intros Hm s Hs. apply Hm, Hs. Qed.

End StEFacts.

(** unfold the plumbing of a computation down to pairs and matches *)
Ltac run_ste :=
  unfold mbind, ste_bind, mret, ste_ret, lift, modify, get, skip, try_pass;
  cbn beta iota.

(** a property kept by every primitive step is kept by a computation
    built from binds, matches and handlers; [tac] closes the goals of the
    [modify] steps *)
Ltac preserves_by tac :=
  repeat match goal with
    | |- preserves _ (mbind _ _) => apply preserves_bind; [|intros ?]
    | |- preserves _ (try_pass _) => apply preserves_try_pass
    | |- preserves _ (lift _) => apply preserves_lift
    | |- preserves _ (mret _) => apply preserves_ret
    | |- preserves _ skip => apply preserves_skip
    | |- preserves _ get => apply preserves_get
    | |- preserves _ (modify _) => apply preserves_modify; tac
    | |- preserves _ (match ?x with _ => _ end) => destruct x
    end.

(** ** The scraping loop *)
Section ScraperFacts.
Context `{PyRuntime}.

Lemma Lead_init_kwargs_of d : Lead_init (kwargs_of d) = Ok (lead_of d).
Proof. reflexivity. Qed.

(** what one visit does, in full: it never raises, it logs one call, and
    it appends exactly when the element yields a record with a new name *)
Lemma visit_eq element st :
  visit element st =
  (Ok tt,
   match _extract_business_data element with
   | Some d =>
       if bool_decide (bd_name d ∈ st_processed_places st)
       then logged EvExtract st
       else {| st_leads := st_leads st ++ [lead_of d];
               st_processed_places :=
                 st_processed_places st ∪ {[ bd_name d ]};
               st_trace := st_trace st ++ [EvExtract] |}
   | None => logged EvExtract st
   end).
Proof.
  unfold visit, log, keep. run_ste.
  destruct (_extract_business_data element) as [d|]; [|reflexivity].
  cbn [st_leads st_processed_places st_trace].
  destruct (bool_decide _); reflexivity.
Qed.

Lemma for_elements_nil m st : for_elements m [] st = (Ok tt, st).
Proof. reflexivity. Qed.

Lemma for_elements_cons m element rest st :
  for_elements m (element :: rest) st =
  if full m st then (Ok tt, st)
  else for_elements m rest (visit element st).2.
Proof.
  cbn [for_elements]. run_ste.
  destruct (full m st); [reflexivity|].
  rewrite visit_eq. reflexivity.
Qed.

Lemma for_elements_ok m elements st : (for_elements m elements st).1 = Ok tt.
Proof.
  revert st. induction elements as [|e rest IH]; intros st; [reflexivity|].
  rewrite for_elements_cons. destruct (full m st); [reflexivity|apply IH].
Qed.

(** a loop invariant: [P] holds after the inner loop when every visit of
    a state that is not yet full keeps it *)
Lemma for_elements_inv (P : ScrapeState -> Prop) m elements :
  (∀ element st, element ∈ elements → full m st = false → P st →
                 P (visit element st).2) →
  preserves P (for_elements m elements).
Proof.
  induction elements as [|e rest IH]; intros Hv st Hst; [exact Hst|].
  rewrite for_elements_cons. destruct (full m st) eqn:Hfull; [exact Hst|].
  apply IH.
  - intros e' st' He'. apply Hv. by right.
  - apply Hv; [by left|done..].
Qed.

Lemma scroll_cycle_eq b m i st :
  scroll_cycle b m i st =
  let st1 :=
    logged EvQuerySelectorAll
      (logged (EvSleep 1) (logged EvScrollResults st)) in
  match query_selector_all b i with
  | Ok elements => for_elements m elements st1
  | Raise e => (Raise e, st1)
  end.
Proof.
  unfold scroll_cycle, _scroll_results, log. run_ste.
  destruct (query_selector_all b i); reflexivity.
Qed.

Lemma scroll_cycles_S b m n i st :
  scroll_cycles b m (S n) i st =
  match scroll_cycle b m i st with
  | (Ok _, st') =>
      if full m st' then (Ok tt, st') else scroll_cycles b m n (S i) st'
  | (Raise e, st') => (Raise e, st')
  end.
Proof.
  cbn [scroll_cycles]. run_ste.
  destruct (scroll_cycle b m i st) as [[[]|e] st']; [|reflexivity].
  destruct (full m st'); reflexivity.
Qed.

(** an invariant of the whole loop *)
Lemma scroll_cycles_inv (P : ScrapeState -> Prop) b m :
  (∀ ev st, P st → P (logged ev st)) →
  (∀ i elements element st,
      query_selector_all b i = Ok elements → element ∈ elements →
      full m st = false → P st → P (visit element st).2) →
  ∀ n i, preserves P (scroll_cycles b m n i).
Proof.
  intros Hlog Hv n. induction n as [|n IH]; intros i st Hst; [exact Hst|].
  rewrite scroll_cycles_S.
  assert (Hc : P (scroll_cycle b m i st).2).
  { rewrite scroll_cycle_eq. simpl.
    destruct (query_selector_all b i) as [elements|e] eqn:Hq.
    - apply for_elements_inv; [|by do 3 apply Hlog].
      intros e st'. by apply Hv with (i := i) (elements := elements).
    - simpl. by do 3 apply Hlog. }
  destruct (scroll_cycle b m i st) as [[[]|e] st']; simpl in *; [|exact Hc].
  destruct (full m st'); [exact Hc|]. by apply IH.
Qed.

(** the state in which the [try] block of [scrape_businesses] ends *)
Lemma scrape_body_inv (P : ScrapeState -> Prop) b q l m :
  (∀ ev st, P st → P (logged ev st)) →
  (∀ i elements element st,
      query_selector_all b i = Ok elements → element ∈ elements →
      full m st = false → P st → P (visit element st).2) →
  preserves P (scrape_body b q l m).
Proof.
  intros Hlog Hv. unfold scrape_body.
  repeat (apply preserves_bind; [|intros ?]);
    try (apply preserves_modify; intros; by apply Hlog);
    try apply preserves_lift.
  by apply scroll_cycles_inv.
Qed.

(** when [scrape_businesses] returns a list, it is the list of the final
    state of the [try] block *)
Lemma scrape_businesses_ok b q l m leads :
  (scrape_businesses b q l m).1 = Ok leads →
  ∃ st,
    (scrape_body b q l m
       {| st_leads := []; st_processed_places := ∅;
          st_trace := [EvInitBrowser] |}).2 = st ∧
    leads = st_leads st.
Proof.
  unfold scrape_businesses.
  destruct (init_browser b); [|discriminate].
  destruct (scrape_body _ _ _ _ _) as [r st].
  destruct (close_browser b); [|discriminate].
  destruct r; [|discriminate].
  simpl. intros [= <-]. by exists st.
Qed.

Lemma scrape_businesses_inv (P : ScrapeState -> Prop) b q l m leads :
  (∀ ev st, P st → P (logged ev st)) →
  (∀ i elements element st,
      query_selector_all b i = Ok elements → element ∈ elements →
      full m st = false → P st → P (visit element st).2) →
  P {| st_leads := []; st_processed_places := ∅;
       st_trace := [EvInitBrowser] |} →
  (scrape_businesses b q l m).1 = Ok leads →
  ∃ st, P st ∧ leads = st_leads st.
Proof.
  intros Hlog Hv H0 Hok.
  destruct (scrape_businesses_ok _ _ _ _ _ Hok) as (st & <- & ->).
  eexists. split; [|reflexivity].
  by apply scrape_body_inv.
Qed.

End ScraperFacts.

(** ** Deduplication, the bound on the result, and the provenance of the
    leads *)
Section ScrapeResults.
Context `{PyRuntime}.

Lemma logged_names_tracked ev st :
  names_tracked st → names_tracked (logged ev st).
Proof. intros Hst. exact Hst. Qed.

Lemma visit_names_tracked element st :
  names_tracked st → names_tracked (visit element st).2.
Proof.
  intros [Hnd Hin]. rewrite visit_eq. cbn [snd].
  destruct (_extract_business_data element) as [d|]; [|by split].
  case_bool_decide as Hseen; [by split|].
  split; cbn [st_leads st_processed_places].
  - rewrite fmap_app. apply NoDup_app. split; [exact Hnd|].
    split; [|apply NoDup_singleton].
    intros n Hn Hn'. apply list_elem_of_singleton in Hn'. subst n.
    apply Hseen, Hin, Hn.
  - intros n. rewrite fmap_app, elem_of_app. intros [Hn|Hn].
    + apply elem_of_union_l, Hin, Hn.
    + apply list_elem_of_singleton in Hn. subst n.
      apply elem_of_union_r, elem_of_singleton. reflexivity.
Qed.

Lemma visit_length element st :
  length (st_leads st) ≤ length (st_leads (visit element st).2) ≤
  S (length (st_leads st)).
Proof.
  rewrite visit_eq. cbn [snd].
  destruct (_extract_business_data element) as [d|]; [|simpl; lia].
  case_bool_decide; cbn [st_leads logged]; [lia|].
  rewrite length_app. simpl. lia.
Qed.

Lemma full_false m st :
  full m st = false → (Z.of_nat (length (st_leads st)) < m)%Z.
Proof. unfold full. intros Hf. apply Z.leb_gt in Hf. exact Hf. Qed.

Lemma visit_scraped_from b i elements element st :
  query_selector_all b i = Ok elements → element ∈ elements →
  Forall (scraped_from b) (st_leads st) →
  Forall (scraped_from b) (st_leads (visit element st).2).
Proof.
  intros Hq Hel Hst. rewrite visit_eq. cbn [snd].
  destruct (_extract_business_data element) as [d|] eqn:Hd; [|exact Hst].
  case_bool_decide; [exact Hst|]. cbn [st_leads].
  apply Forall_app. split; [exact Hst|].
  apply Forall_singleton. by exists i, elements, element, d.
Qed.

(** an extracted record comes from an element with a name text, and its
    name is that text, stripped *)
Lemma extract_some_name element d :
  _extract_business_data element = Some d →
  ∃ text, has_name_text element text ∧ bd_name d = PyStr.strip text.
Proof.
  unfold _extract_business_data, has_name_text.
  unfold mbind, res_bind, mret, res_ret.
  destruct (query_selector element SelBusinessName) as [[node|]|];
    [|discriminate..].
  destruct (text_content node) as [[text|]|] eqn:Htext; [|discriminate..].
  destruct text as [|c text]; [discriminate|]. cbn [PyStr.opt_truthy
    PyStr.truthy negb PyStr.or_empty].
  intros Hd. exists (String c text). split.
  - exists node. done.
  - revert Hd.
    assert (Hname : ∀ n,
      preserves (λ d0, bd_name d0 = n) (fill_business_data element)).
    { intros n.
      unfold fill_business_data, extract_address, extract_rating,
        extract_reviews, extract_category, extract_details, child_text.
      preserves_by ltac:(intros ? <-; reflexivity). }
    specialize (Hname _ (new_business_data (PyStr.strip (String c text)))
                  eq_refl).
    destruct (fill_business_data _ _) as [[[]|e] d']; [|discriminate].
    intros [= <-]. exact Hname.
Qed.

End ScrapeResults.

(** ** The calls made by the loop *)
Section ScrapeCalls.
Context `{PyRuntime}.

Lemma visit_trace element st :
  st_trace (visit element st).2 = st_trace st ++ [EvExtract].
Proof.
  rewrite visit_eq. cbn [snd].
  destruct (_extract_business_data element); [|reflexivity].
  case_bool_decide; reflexivity.
Qed.

Lemma for_elements_trace m elements st :
  ∃ k, k ≤ length elements ∧
       st_trace (for_elements m elements st).2 =
       st_trace st ++ replicate k EvExtract.
Proof.
  revert st. induction elements as [|e rest IH]; intros st.
  - exists 0. split; [done|]. simpl. by rewrite app_nil_r.
  - rewrite for_elements_cons. destruct (full m st).
    + exists 0. split; [simpl; lia|]. simpl. by rewrite app_nil_r.
    + destruct (IH (visit e st).2) as (k & Hk & Htr).
      exists (S k). split; [simpl; lia|].
      rewrite Htr, visit_trace, <- app_assoc. reflexivity.
Qed.

Lemma scroll_cycle_trace b m i st :
  ∃ k, st_trace (scroll_cycle b m i st).2 =
       st_trace st ++ Spec.cycle_calls k.
Proof.
  rewrite scroll_cycle_eq. cbn zeta.
  destruct (query_selector_all b i) as [elements|e].
  - destruct (for_elements_trace m elements
                (logged EvQuerySelectorAll
                   (logged (EvSleep 1) (logged EvScrollResults st))))
      as (k & _ & ->).
    exists k. unfold Spec.cycle_calls. cbn [logged st_trace].
    rewrite <- !app_assoc. reflexivity.
  - exists 0. unfold Spec.cycle_calls. cbn [snd logged st_trace replicate].
    rewrite <- !app_assoc. reflexivity.
Qed.

Lemma scroll_cycles_trace b m n i st :
  ∃ ks, length ks ≤ n ∧
        st_trace (scroll_cycles b m n i st).2 =
        st_trace st ++ Spec.cycles_calls ks.
Proof.
  revert i st. induction n as [|n IH]; intros i st.
  - exists []. split; [done|]. simpl. by rewrite app_nil_r.
  - rewrite scroll_cycles_S.
    destruct (scroll_cycle_trace b m i st) as (k & Hk).
    destruct (scroll_cycle b m i st) as [[[]|e] st']; cbn [snd] in Hk.
    + destruct (full m st').
      * exists [k]. split; [simpl; lia|].
        unfold Spec.cycles_calls. simpl. by rewrite app_nil_r.
      * destruct (IH (S i) st') as (ks & Hks & Htr).
        exists (k :: ks). split; [simpl; lia|].
        rewrite Htr, Hk, <- app_assoc. reflexivity.
    + exists [k]. split; [simpl; lia|].
      unfold Spec.cycles_calls. simpl. by rewrite app_nil_r.
Qed.

Lemma scrape_body_trace b q l m :
  ∃ head ks,
    st_trace (scrape_body b q l m
                {| st_leads := []; st_processed_places := ∅;
                   st_trace := [EvInitBrowser] |}).2 =
    head ++ Spec.cycles_calls ks ∧
    head `prefix_of` Spec.setup_calls q l ∧
    length ks ≤ cycle_budget m.
Proof.
  unfold scrape_body, log. run_ste. cbn [st_leads st_processed_places
    st_trace app].
  destruct (goto b (search_url q l)).
  - destruct (wait_for_selector b SelSearchResults).
    + match goal with
      | |- context [scroll_cycles b m ?n ?i ?st] =>
          destruct (scroll_cycles_trace b m n i st) as (ks & Hks & Htr)
      end.
      exists (Spec.setup_calls q l), ks. split; [|split]; [|done..].
      rewrite Htr. reflexivity.
    + exists (Spec.setup_calls q l), []. split; [|split]; [|done|simpl; lia].
      simpl. reflexivity.
  - exists [EvInitBrowser; EvGoto (search_url q l)], [].
    split; [|split]; [reflexivity| |simpl; lia].
    by exists [EvSleep 2; EvWaitForSelector].
Qed.

Lemma scrape_businesses_trace b q l m :
  ∃ head ks tail,
    (scrape_businesses b q l m).2 = head ++ Spec.cycles_calls ks ++ tail ∧
    head `prefix_of` Spec.setup_calls q l ∧
    tail `suffix_of` [EvCloseBrowser] ∧
    length ks ≤ cycle_budget m.
Proof.
  unfold scrape_businesses. destruct (init_browser b).
  - destruct (scrape_body_trace b q l m) as (head & ks & Htr & Hhead & Hks).
    destruct (scrape_body _ _ _ _ _) as [r st]. cbn [snd] in Htr.
    exists head, ks, [EvCloseBrowser].
    split; [|split; [done|split; [done|done]]].
    destruct (close_browser b); [destruct r|]; cbn [snd];
      rewrite Htr, <- app_assoc; reflexivity.
  - exists [EvInitBrowser], [], []. split; [reflexivity|].
    split; [by exists [EvGoto (search_url q l); EvSleep 2; EvWaitForSelector]|].
    split; [by exists [EvCloseBrowser]|simpl; lia].
Qed.

End ScrapeCalls.

(** ** Properties of [scrape_businesses] *)
Section ScrapeClaims.
Context `{PyRuntime}.

(** C2. Deduplication in [scrape_businesses] is a membership test on the
    extracted name: a record whose name is already in [processed_places]
    is not appended; a record with a new name is appended and its name
    enters the set in the same step; hence the names of the returned
    leads are pairwise distinct. *)
Theorem scrape_businesses_dedup :
  (∀ element d st,
      _extract_business_data element = Some d →
      bd_name d ∈ st_processed_places st →
      st_leads (visit element st).2 = st_leads st ∧
      st_processed_places (visit element st).2 = st_processed_places st) ∧
  (∀ element d st,
      _extract_business_data element = Some d →
      bd_name d ∉ st_processed_places st →
      ∃ lead,
        name lead = bd_name d ∧
        st_leads (visit element st).2 = st_leads st ++ [lead] ∧
        st_processed_places (visit element st).2 =
          st_processed_places st ∪ {[ name lead ]}) ∧
  (∀ b q l m leads,
      (scrape_businesses b q l m).1 = Ok leads →
      NoDup (name <$> leads)).
Proof.
  split; [|split].
  - intros element d st Hd Hin. rewrite visit_eq, Hd. cbn [snd].
    rewrite bool_decide_eq_true_2 by exact Hin. done.
  - intros element d st Hd Hin. rewrite visit_eq, Hd. cbn [snd].
    rewrite bool_decide_eq_false_2 by exact Hin.
    exists (lead_of d). done.
  - intros b q l m leads Hok.
    destruct (scrape_businesses_inv names_tracked b q l m leads)
      as (st & [Hnd _] & ->); [| | |exact Hok|exact Hnd].
    + intros ev st. apply logged_names_tracked.
    + intros i elements element st _ _ _. apply visit_names_tracked.
    + split; [apply NoDup_nil_2|]. intros n Hn. by apply elem_of_nil in Hn.
Qed.

(** C3. The scroll loop is bounded: for [max_results >= 1] the calls of a
    run are some of the set-up calls, then at most [max_results // 10]
    cycles, each one scroll, one sleep of a second, one query for the
    result elements and the visits of elements, then the closing of the
    browser; no cycle at all runs for [1 <= max_results <= 9]; and the
    loop stops after a cycle that ends with [max_results] leads. *)
Theorem scroll_loop_bounded b q l m :
  (1 ≤ m)%Z →
  (∃ head ks tail,
      (scrape_businesses b q l m).2 =
        head ++ Spec.cycles_calls ks ++ tail ∧
      head `prefix_of` Spec.setup_calls q l ∧
      tail `suffix_of` [EvCloseBrowser] ∧
      (Z.of_nat (length ks) ≤ m / 10)%Z ∧
      ((m ≤ 9)%Z → ks = [])) ∧
  (∀ n i st st',
      scroll_cycle b m i st = (Ok tt, st') →
      full m st' = true →
      scroll_cycles b m (S n) i st = (Ok tt, st')).
Proof.
  intros Hm. split.
  - destruct (scrape_businesses_trace b q l m)
      as (head & ks & tail & Htr & Hhead & Htail & Hks).
    exists head, ks, tail. split; [exact Htr|].
    split; [exact Hhead|]. split; [exact Htail|].
    unfold cycle_budget in Hks.
    assert (0 ≤ m / 10)%Z as Hpos by (apply Z.div_pos; lia).
    split; [lia|].
    intros Hm9. assert (m / 10 = 0)%Z as Hq0 by (apply Z.div_small; lia).
    rewrite Hq0 in Hks. destruct ks; [reflexivity|simpl in Hks; lia].
  - intros n i st st' Hc Hfull.
    rewrite scroll_cycles_S, Hc, Hfull. reflexivity.
Qed.

(** C4, as amended. For [max_results >= 0] the list returned by
    [scrape_businesses] has at most [max_results] leads; and the
    response of [POST /scrape] carries that list with [total_found]
    equal to its length, which is at most [max_results] for every request
    the schema admits. *)
Theorem scrape_at_most_max_results :
  (∀ b q l m leads,
      (0 ≤ m)%Z →
      (scrape_businesses b q l m).1 = Ok leads →
      (Z.of_nat (length leads) ≤ m)%Z) ∧
  (∀ b uuid4 request app response app',
      scrape_leads b uuid4 request app = (Ok response, app') →
      (scrape_businesses b (query request) (location request)
         (max_results request)).1 = Ok (sr_leads response) ∧
      sr_total_found response = Z.of_nat (length (sr_leads response))).
Proof.
  split.
  - intros b q l m leads Hm Hok.
    destruct (scrape_businesses_inv
                (λ st, (Z.of_nat (length (st_leads st)) ≤ m)%Z)
                b q l m leads) as (st & Hst & ->);
      [| | |exact Hok|exact Hst].
    + intros ev st Hst. exact Hst.
    + intros i elements element st _ _ Hfull _.
      apply full_false in Hfull.
      pose proof (visit_length element st). lia.
    + simpl. lia.
  - intros b uuid4 request app response app'.
    unfold scrape_leads, try_or_500, scrape_leads_body, store. run_ste.
    destruct (scrape_businesses _ _ _ _).1 as [leads|e]; [|discriminate].
    intros [= <- _]. done.
Qed.


End ScrapeClaims.

(** ** The regular expressions against their reading in words *)
Section RegexFacts.

Lemma take_run p s :
  take (length (PyStr.take_while p s)) s = PyStr.take_while p s.
Proof.
  induction s as [|c s IH]; [reflexivity|]. simpl.
  destruct (p c); [|reflexivity]. simpl. by rewrite IH.
Qed.



Lemma first_down_top {X} (f : nat → option X) lo gap x :
  f (lo + gap) = Some x → Re.first_down f lo gap = Some x.
Proof. intros Hf. destruct gap; simpl; by rewrite Hf. Qed.

Lemma first_down_some {X} (f : nat → option X) lo gap :
  is_Some (f (lo + gap)) → Re.first_down f lo gap = f (lo + gap).
Proof. intros [x Hf]. rewrite Hf. by apply first_down_top. Qed.








Lemma no_digit_no_integer s :
  existsb PyStr.is_digit s = false → Spec.first_integer s = None.
Proof.
  unfold Spec.first_integer, Spec.not_digit.
  induction s as [|c s IH]; [reflexivity|]. cbn [existsb PyStr.drop_while].
  intros [Hc Hs]%orb_false_iff. rewrite Hc. cbn [negb]. by apply IH.
Qed.

End RegexFacts.

(** ** What [_extract_business_data] stores *)
Section ExtractFacts.
Context `{PyRuntime}.

Lemma ste_bind_ok {S A B} (m : StE S A) (k : A → StE S B) s b s' :
  (m ≫= k) s = (Ok b, s') →
  ∃ a s1, m s = (Ok a, s1) ∧ k a s1 = (Ok b, s').
Proof.
  rewrite ste_bind_eq. destruct (m s) as [[a|e] s1]; [|discriminate].
  intros Hk. by exists a, s1.
Qed.





Lemma fill_business_data_ok element d0 d' :
  fill_business_data element d0 = (Ok tt, d') →
  ∃ d1 d2 d3 d4,
    extract_address element d0 = (Ok tt, d1) ∧
    extract_rating element d1 = (Ok tt, d2) ∧
    extract_reviews element d2 = (Ok tt, d3) ∧
    extract_category element d3 = (Ok tt, d4) ∧
    d' = (extract_details element d4).2.
Proof.
  unfold fill_business_data. intros Hfill.
  apply ste_bind_ok in Hfill as ([] & d1 & H1 & Hfill).
  apply ste_bind_ok in Hfill as ([] & d2 & H2 & Hfill).
  apply ste_bind_ok in Hfill as ([] & d3 & H3 & Hfill).
  apply ste_bind_ok in Hfill as ([] & d4 & H4 & Hfill).
  exists d1, d2, d3, d4. repeat split; try done.
  unfold try_pass in Hfill. by injection Hfill as <-.
Qed.










Lemma extract_some_fill element d :
  _extract_business_data element = Some d →
  ∃ n, fill_business_data element (new_business_data n) = (Ok tt, d).
Proof.
  unfold _extract_business_data.
  unfold mbind, res_bind, mret, res_ret.
  destruct (query_selector element SelBusinessName) as [[node|]|];
    [|discriminate..].
  destruct (text_content node) as [[text|]|]; [|discriminate..].
  destruct (negb _); [discriminate|].
  destruct (fill_business_data _ _) as [[[]|e] d'] eqn:Hfill;
    [|discriminate].
  intros [= <-]. eauto.
Qed.


End ExtractFacts.

(** ** Strings: suffixes *)
Section SuffixFacts.

Lemma chars_app a b :
  PyStr.chars (a +:+ b) = PyStr.chars a ++ PyStr.chars b.
Proof.
  unfold PyStr.chars. induction a as [|c a IH]; [reflexivity|].
  simpl. by rewrite IH.
Qed.

Lemma starts_with_app p x y :
  PyStr.starts_with p x = true → PyStr.starts_with p (x ++ y) = true.
Proof.
  revert x. induction p as [|a p IH]; intros x; [done|].
  destruct x as [|b x]; [discriminate|]. simpl.
  intros [-> Hp]%andb_true_iff. by rewrite IH.
Qed.

Lemma starts_with_refl p : PyStr.starts_with p p = true.
Proof.
  induction p as [|a p IH]; [done|]. simpl.
  by rewrite bool_decide_eq_true_2, IH.
Qed.

Lemma endswith_app a b suffix :
  PyStr.endswith b suffix = true → PyStr.endswith (a +:+ b) suffix = true.
Proof.
  unfold PyStr.endswith. rewrite chars_app, rev_app_distr.
  apply starts_with_app.
Qed.

Lemma endswith_refl s : PyStr.endswith s s = true.
Proof. apply starts_with_refl. Qed.

End SuffixFacts.

(** ** The exporter *)
Section ExportFacts.
Context `{PyRuntime}.

Lemma csv_filename_csv w filename :
  PyStr.endswith (csv_filename w filename) ".csv" = true.
Proof.
  unfold csv_filename. cbn zeta.
  set (chosen := if PyStr.opt_truthy filename then _ else _).
  destruct (PyStr.endswith chosen ".csv") eqn:Hend; [exact Hend|].
  apply endswith_app, endswith_refl.
Qed.

Lemma path_join_endswith a b suffix :
  PyStr.endswith b suffix = true →
  PyStr.endswith (path_join a b) suffix = true.
Proof.
  intros Hb. unfold path_join.
  destruct (PyStr.starts_with _ _); [exact Hb|].
  destruct (_ || _); by repeat apply endswith_app.
Qed.


Lemma export_to_csv_eq self leads filename w :
  export_to_csv self leads filename w =
  let path := path_join (export_dir self) (csv_filename w filename) in
  match open_for_write w path with
  | Ok _ =>
      (Ok path,
       {| files := <[path := headers :: map row_of leads]> (files w);
          now := now w;
          open_for_write := open_for_write w |})
  | Raise e => (Raise e, w)
  end.
Proof.
  unfold export_to_csv, write_rows. run_ste.
  destruct (open_for_write w _); reflexivity.
Qed.


(** C10. [export_to_sheets] is a stub: its outcome does not depend on
    [sheets_url]; it does what [export_to_csv] does under a time-stamped
    name and returns [True] when that returns and [False], without
    raising, when that raises; and [POST /export] with format [sheets]
    answers a [False] with a 500 error. *)
Theorem export_to_sheets_stub self leads url w :
  (∀ url', export_to_sheets self leads url' w =
           export_to_sheets self leads url w) ∧
  (let r := export_to_csv self leads
              (Some ("leads_for_sheets_" +:+ now w +:+ ".csv")) w in
   export_to_sheets self leads url w = (Ok (is_ok r.1), r.2)) ∧
  (∀ request app,
      leads_storage app !! ex_scrape_id request = Some leads →
      format request = "sheets"%string →
      sheets_url request = Some url →
      PyStr.truthy url = true →
      w = world app →
      (export_to_sheets self leads url w).1 = Ok false →
      (export_leads self request app).1 =
      Raise (HTTPException 500
               ("Export failed: " +:+
                http_exception_str 500
                  "Failed to export to Google Sheets"))).
Proof.
  split; [|split].
  - reflexivity.
  - cbn zeta. unfold export_to_sheets.
    by destruct (export_to_csv _ _ _ _) as [[p|e] w'].
  - intros request app Hleads Hformat Hurl Htruthy -> Hfalse.
    unfold export_leads, try_or_500, export_leads_body, in_world, raise.
    run_ste. rewrite Hleads, Hformat, Hurl. cbn [String.eqb Ascii.eqb
      Bool.eqb PyStr.opt_truthy PyStr.or_empty]. rewrite Htruthy.
    cbn [negb].
    destruct (export_to_sheets self leads url (world app))
      as [[[]|e] w'] eqn:Hsheets; cbn [fst] in Hfalse; try discriminate.
    reflexivity.
Qed.

End ExportFacts.

(** ** The handlers *)
Section MainFacts.
Context `{PyRuntime}.

Lemma try_or_500_raise {A} prefix (body : Handler A) app e :
  (body app).1 = Raise e →
  (try_or_500 prefix body app).1 =
  Raise (HTTPException 500 (prefix +:+ exc_str e)).
Proof.
  unfold try_or_500. destruct (body app) as [[a|e'] app']; [discriminate|].
  by intros [= ->].
Qed.

Lemma try_or_500_only {A} prefix (body : Handler A) app e :
  (try_or_500 prefix body app).1 = Raise e →
  ∃ e', (body app).1 = Raise e' ∧
        e = HTTPException 500 (prefix +:+ exc_str e').
Proof.
  unfold try_or_500. destruct (body app) as [[a|e'] app']; [discriminate|].
  intros [= <-]. by exists e'.
Qed.

Lemma try_or_500_ok {A} prefix (body : Handler A) app a app' :
  try_or_500 prefix body app = (Ok a, app') → body app = (Ok a, app').
Proof.
  unfold try_or_500. destruct (body app) as [[a0|e'] app0]; [|discriminate].
  by intros [= -> ->].
Qed.

Lemma try_or_500_state {A} prefix (body : Handler A) app :
  (try_or_500 prefix body app).2 = (body app).2.
Proof. unfold try_or_500. by destruct (body app) as [[a|e'] app']. Qed.

Lemma scrape_leads_body_ok b uuid4 request app response app' :
  scrape_leads_body b uuid4 request app = (Ok response, app') →
  ∃ leads,
    (scrape_businesses b (query request) (location request)
       (max_results request)).1 = Ok leads ∧
    response = {| sr_scrape_id := uuid4; sr_leads := leads;
                  sr_total_found := Z.of_nat (length leads);
                  sr_status := "success" |} ∧
    app' = {| leads_storage := <[uuid4 := leads]> (leads_storage app);
              world := world app |}.
Proof.
  unfold scrape_leads_body, store. run_ste.
  destruct (scrape_businesses _ _ _ _).1 as [leads|e]; [|discriminate].
  intros [= <- <-]. by exists leads.
Qed.

Lemma get_leads_eq scrape_id app :
  get_leads scrape_id app =
  match leads_storage app !! scrape_id with
  | Some leads =>
      (Ok {| lr_scrape_id := scrape_id; lr_leads := leads;
             lr_total := Z.of_nat (length leads) |}, app)
  | None => (Raise (HTTPException 404 "Scrape ID not found"), app)
  end.
Proof.
  unfold get_leads, not_found, raise. run_ste.
  by destruct (leads_storage app !! scrape_id).
Qed.

Lemma delete_leads_eq scrape_id app :
  delete_leads scrape_id app =
  match leads_storage app !! scrape_id with
  | Some _ =>
      (Ok "Leads deleted successfully"%string,
       {| leads_storage := delete scrape_id (leads_storage app);
          world := world app |})
  | None => (Raise (HTTPException 404 "Scrape ID not found"), app)
  end.
Proof.
  unfold delete_leads, not_found, raise. run_ste.
  by destruct (leads_storage app !! scrape_id).
Qed.

(** a request that leaves [scrape_id] alone leaves its batch as it is *)
Lemma handle_leaves scrape_id rq app :
  leaves scrape_id rq →
  leads_storage (handle rq app) !! scrape_id =
  leads_storage app !! scrape_id.
Proof.
  destruct rq as [b uuid4 request|enricher request|em request|sid|sid];
    cbn [leaves handle]; intros Hrq.
  - unfold scrape_leads. rewrite try_or_500_state.
    unfold scrape_leads_body, store. run_ste.
    destruct (scrape_businesses _ _ _ _).1 as [leads|e]; [|reflexivity].
    cbn [snd leads_storage]. by rewrite lookup_insert_ne.
  - unfold enrich_leads. rewrite try_or_500_state.
    unfold enrich_leads_body, store, not_found, raise. run_ste.
    destruct (leads_storage app !! er_scrape_id request) as [leads|];
      [|reflexivity].
    destruct (enricher leads _) as [enriched|e]; [|reflexivity].
    cbn [snd leads_storage]. by rewrite lookup_insert_ne.
  - unfold export_leads. rewrite try_or_500_state.
    unfold export_leads_body, in_world, not_found, raise. run_ste.
    destruct (leads_storage app !! ex_scrape_id request) as [leads|];
      [|reflexivity].
    destruct (String.eqb (format request) "csv").
    + by destruct (export_to_csv _ _ _ _) as [[p|e] w'].
    + destruct (String.eqb (format request) "sheets"); [|reflexivity].
      destruct (negb _); [reflexivity|].
      by destruct (export_to_sheets _ _ _ _) as [[[]|e] w'].
  - rewrite get_leads_eq. by destruct (leads_storage app !! sid).
  - rewrite delete_leads_eq.
    destruct (leads_storage app !! sid); [|reflexivity].
    cbn [snd leads_storage]. by rewrite lookup_delete_ne.
Qed.

Lemma handle_all_leaves scrape_id rqs app :
  Forall (leaves scrape_id) rqs →
  leads_storage (handle_all rqs app) !! scrape_id =
  leads_storage app !! scrape_id.
Proof.
  unfold handle_all. revert app.
  induction rqs as [|rq rqs IH]; intros app Hrqs; [reflexivity|].
  apply Forall_cons in Hrqs as [Hrq Hrqs]. cbn [foldl].
  rewrite IH by exact Hrqs. by apply handle_leaves.
Qed.

End MainFacts.

(** ** Properties of the handlers *)
Section MainClaims.
Context `{PyRuntime}.

(** C1. In [POST /scrape], [POST /enrich] and [POST /export] every
    exception raised by the body of the handler leaves the handler as an
    [HTTPException] with status 500 whose detail is the prefix of the
    endpoint followed by [str(e)]; nothing else is ever raised by them.
    This holds for the [HTTPException]s raised inside the [try] as well:
    the 404 for an unknown [scrape_id] and the 400 for a missing
    [sheets_url] or an invalid format all come out as 500. *)
Theorem handlers_raise_500 :
  (∀ b uuid4 request app,
      (∀ e, (scrape_leads_body b uuid4 request app).1 = Raise e →
            (scrape_leads b uuid4 request app).1 =
            Raise (HTTPException 500
                     ("Scraping failed: " +:+ exc_str e))) ∧
      (∀ e, (scrape_leads b uuid4 request app).1 = Raise e →
            ∃ text, e = HTTPException 500
                          ("Scraping failed: " +:+ text))) ∧
  (∀ enricher request app,
      (∀ e, (enrich_leads_body enricher request app).1 = Raise e →
            (enrich_leads enricher request app).1 =
            Raise (HTTPException 500
                     ("Enrichment failed: " +:+ exc_str e))) ∧
      (∀ e, (enrich_leads enricher request app).1 = Raise e →
            ∃ text, e = HTTPException 500
                          ("Enrichment failed: " +:+ text)) ∧
      (leads_storage app !! er_scrape_id request = None →
       (enrich_leads enricher request app).1 =
       Raise (HTTPException 500
                ("Enrichment failed: " +:+
                 http_exception_str 404 "Scrape ID not found")))) ∧
  (∀ export_manager request app,
      (∀ e, (export_leads_body export_manager request app).1 = Raise e →
            (export_leads export_manager request app).1 =
            Raise (HTTPException 500
                     ("Export failed: " +:+ exc_str e))) ∧
      (∀ e, (export_leads export_manager request app).1 = Raise e →
            ∃ text, e = HTTPException 500
                          ("Export failed: " +:+ text)) ∧
      (leads_storage app !! ex_scrape_id request = None →
       (export_leads export_manager request app).1 =
       Raise (HTTPException 500
                ("Export failed: " +:+
                 http_exception_str 404 "Scrape ID not found"))) ∧
      (is_Some (leads_storage app !! ex_scrape_id request) →
       format request = "sheets"%string →
       PyStr.opt_truthy (sheets_url request) = false →
       (export_leads export_manager request app).1 =
       Raise (HTTPException 500
                ("Export failed: " +:+
                 http_exception_str 400 "Google Sheets URL required"))) ∧
      (is_Some (leads_storage app !! ex_scrape_id request) →
       format request ≠ "csv"%string →
       format request ≠ "sheets"%string →
       (export_leads export_manager request app).1 =
       Raise (HTTPException 500
                ("Export failed: " +:+
                 http_exception_str 400 "Invalid export format")))).
Proof.
  split; [|split].
  - intros b uuid4 request app. split.
    + intros e. apply try_or_500_raise.
    + intros e [e' [_ ->]]%try_or_500_only. eauto.
  - intros enricher request app. split; [|split].
    + intros e. apply try_or_500_raise.
    + intros e [e' [_ ->]]%try_or_500_only. eauto.
    + intros Hnone.
      apply (try_or_500_raise _ _ _
               (HTTPException 404 "Scrape ID not found")).
      unfold enrich_leads_body, not_found, raise. run_ste.
      by rewrite Hnone.
  - intros em request app. split; [|split; [|split; [|split]]].
    + intros e. apply try_or_500_raise.
    + intros e [e' [_ ->]]%try_or_500_only. eauto.
    + intros Hnone.
      apply (try_or_500_raise _ _ _
               (HTTPException 404 "Scrape ID not found")).
      unfold export_leads_body, not_found, raise. run_ste.
      by rewrite Hnone.
    + intros [leads Hleads] Hformat Hurl.
      apply (try_or_500_raise _ _ _
               (HTTPException 400 "Google Sheets URL required")).
      unfold export_leads_body, not_found, raise. run_ste.
      rewrite Hleads, Hformat, Hurl. reflexivity.
    + intros [leads Hleads] Hcsv Hsheets.
      apply (try_or_500_raise _ _ _
               (HTTPException 400 "Invalid export format")).
      unfold export_leads_body, not_found, raise. run_ste.
      rewrite Hleads.
      apply String.eqb_neq in Hcsv, Hsheets.
      by rewrite Hcsv, Hsheets.
Qed.

(** C6. A successful [POST /scrape] stores the scraped leads under the
    generated identifier and returns that identifier; [GET /leads] with
    it then returns those leads and their count, at once and after any
    requests that are no enrich or delete on it (and no scrape that
    generates it again). *)
Theorem scrape_then_get b uuid4 request app response app' :
  scrape_leads b uuid4 request app = (Ok response, app') →
  sr_scrape_id response = uuid4 ∧
  leads_storage app' = <[uuid4 := sr_leads response]> (leads_storage app) ∧
  get_leads (sr_scrape_id response) app' =
    (Ok {| lr_scrape_id := sr_scrape_id response;
           lr_leads := sr_leads response;
           lr_total := Z.of_nat (length (sr_leads response)) |}, app') ∧
  (∀ rqs,
      Forall (leaves (sr_scrape_id response)) rqs →
      (get_leads (sr_scrape_id response) (handle_all rqs app')).1 =
      Ok {| lr_scrape_id := sr_scrape_id response;
            lr_leads := sr_leads response;
            lr_total := Z.of_nat (length (sr_leads response)) |}).
Proof.
  intros Hok. apply try_or_500_ok in Hok.
  apply scrape_leads_body_ok in Hok as (leads & _ & -> & ->).
  cbn [sr_scrape_id sr_leads leads_storage].
  split; [reflexivity|]. split; [reflexivity|]. split.
  - rewrite get_leads_eq. cbn [leads_storage].
    by rewrite lookup_insert_eq.
  - intros rqs Hrqs. rewrite get_leads_eq.
    rewrite handle_all_leaves by exact Hrqs. cbn [leads_storage].
    by rewrite lookup_insert_eq.
Qed.

(** C8. [GET /leads] and [DELETE /leads] answer 404, Scrape ID not
    found, exactly when [scrape_id] is not a key of [leads_storage], and
    then the storage is as before; [GET] never changes it; a successful
    [DELETE] removes that key and leaves every other batch as it was. *)
Theorem leads_404_and_delete scrape_id app :
  ((get_leads scrape_id app).1 =
     Raise (HTTPException 404 "Scrape ID not found") ↔
   scrape_id ∉ dom (leads_storage app)) ∧
  ((delete_leads scrape_id app).1 =
     Raise (HTTPException 404 "Scrape ID not found") ↔
   scrape_id ∉ dom (leads_storage app)) ∧
  (∀ e, (get_leads scrape_id app).1 = Raise e ∨
        (delete_leads scrape_id app).1 = Raise e →
        e = HTTPException 404 "Scrape ID not found") ∧
  (get_leads scrape_id app).2 = app ∧
  (scrape_id ∉ dom (leads_storage app) →
   (delete_leads scrape_id app).2 = app) ∧
  (scrape_id ∈ dom (leads_storage app) →
   (delete_leads scrape_id app).1 = Ok "Leads deleted successfully"%string ∧
   leads_storage (delete_leads scrape_id app).2 =
     delete scrape_id (leads_storage app) ∧
   world (delete_leads scrape_id app).2 = world app ∧
   dom (leads_storage (delete_leads scrape_id app).2) =
     dom (leads_storage app) ∖ {[ scrape_id ]} ∧
   ∀ other, other ≠ scrape_id →
            leads_storage (delete_leads scrape_id app).2 !! other =
            leads_storage app !! other).
Proof.
  rewrite get_leads_eq, delete_leads_eq, not_elem_of_dom, elem_of_dom.
  destruct (leads_storage app !! scrape_id) as [leads|] eqn:Hl;
    cbn [fst snd].
  - split; [split; [discriminate|intros [=]]|].
    split; [split; [discriminate|intros [=]]|].
    split; [by intros e [[=]|[=]]|].
    split; [reflexivity|]. split; [intros [=]|].
    intros _. cbn [leads_storage world].
    split; [reflexivity|]. split; [reflexivity|]. split; [reflexivity|].
    split; [apply dom_delete_L|].
    intros other Hother. by apply lookup_delete_ne.
  - split; [done|]. split; [done|].
    split; [by intros e [[= <-]|[= <-]]|].
    split; [reflexivity|]. split; [reflexivity|].
    by intros [? [=]].
Qed.

End MainClaims.

#[local] Set Warnings "-clear-no-such-hyp".

(** ** What a run of the scraper returns *)
Section ScrapeOutcomeFacts.
Context `{PyRuntime}.

Lemma collect_no_room seen ds : collect 0 seen ds = [].
Proof. by destruct ds. Qed.

Lemma collect_take room seen ds :
  collect room seen ds = take room (first_by_name seen ds).
Proof.
  revert room seen. induction ds as [|d ds IH]; intros room seen.
  - by destruct room.
  - destruct room as [|room]; [reflexivity|]. cbn [collect first_by_name].
    case_bool_decide; [apply IH|]. cbn [take]. by rewrite IH.
Qed.

Lemma collect_app room seen xs ys :
  collect room seen (xs ++ ys) =
  collect room seen xs ++
  collect (room - length (collect room seen xs))
    (seen ∪ list_to_set (name <$> collect room seen xs)) ys.
Proof.
  revert room seen. induction xs as [|d xs IH]; intros room seen.
  - cbn. f_equal; [lia|set_solver].
  - destruct room as [|room].
    + cbn. by rewrite collect_no_room.
    + cbn [app collect]. case_bool_decide; [apply IH|].
      rewrite IH. cbn [app length fmap list_fmap list_to_set Nat.sub lead_of
        name]. by rewrite (assoc_L (∪)).
Qed.

Lemma records_of_app xs ys :
  records_of (xs ++ ys) = records_of xs ++ records_of ys.
Proof. apply omap_app. Qed.

Lemma full_room m st : full m st = true ↔ room_of m st = 0.
Proof. unfold full, room_of. rewrite Z.leb_le. lia. Qed.

Lemma room_of_logged m ev st : room_of m (logged ev st) = room_of m st.
Proof. reflexivity. Qed.

(** the inner loop appends the leads that [collect] computes *)
Lemma for_elements_collect m elements st :
  let got := collect (room_of m st) (st_processed_places st)
               (records_of elements) in
  st_leads (for_elements m elements st).2 = st_leads st ++ got ∧
  st_processed_places (for_elements m elements st).2 =
    st_processed_places st ∪ list_to_set (name <$> got).
Proof.
  revert st. induction elements as [|e rest IH]; intros st; cbn zeta.
  - cbn. split; [by rewrite app_nil_r|set_solver].
  - rewrite for_elements_cons. destruct (full m st) eqn:Hfull.
    + apply full_room in Hfull. rewrite Hfull, collect_no_room.
      cbn. split; [by rewrite app_nil_r|set_solver].
    + assert (Hroom : room_of m st ≠ 0).
      { intros Hz. apply full_room in Hz. congruence. }
      destruct (room_of m st) as [|room] eqn:Hr; [done|].
      specialize (IH (visit e st).2). cbn zeta in IH.
      rewrite visit_eq in IH |- *. cbn [snd] in IH |- *.
      unfold records_of. cbn [omap list_omap].
      destruct (_extract_business_data e) as [d|]; cbn [collect].
      * case_bool_decide.
        -- rewrite room_of_logged, Hr in IH. exact IH.
        -- unfold room_of in IH, Hr. cbn [st_leads st_processed_places] in IH.
           rewrite length_app in IH. cbn [length] in IH.
           replace (Z.to_nat m - (length (st_leads st) + 1)) with room
             in IH by lia.
           destruct IH as [-> ->]. split.
           ++ by rewrite <- app_assoc.
           ++ cbn [fmap list_fmap list_to_set lead_of name].
              by rewrite (assoc_L (∪)).
      * rewrite room_of_logged, Hr in IH. exact IH.
Qed.

(** a loop that returns has appended the leads that [collect] computes
    from the pages of its cycles *)
Lemma scroll_cycles_collect b m n i st st' :
  scroll_cycles b m n i st = (Ok tt, st') →
  let got := collect (room_of m st) (st_processed_places st)
               (records_of (flat_map (page_of b) (seq i n))) in
  st_leads st' = st_leads st ++ got ∧
  st_processed_places st' = st_processed_places st ∪
                            list_to_set (name <$> got).
Proof.
  revert i st. induction n as [|n IH]; intros i st; cbn zeta.
  - intros [= <-]. cbn. split; [by rewrite app_nil_r|set_solver].
  - rewrite scroll_cycles_S, scroll_cycle_eq. cbn zeta.
    destruct (query_selector_all b i) as [elements|e] eqn:Hq; [|discriminate].
    assert (Hpg : page_of b i = elements) by (unfold page_of; by rewrite Hq).
    cbn [seq flat_map]. rewrite Hpg. clear Hpg Hq.
    set (st1 := logged _ (logged _ (logged _ st))).
    pose proof (for_elements_collect m elements st1) as Hpage.
    cbn zeta in Hpage. pose proof (for_elements_ok m elements st1) as Hok.
    destruct (for_elements m elements st1) as [r st2].
    cbn [fst snd] in Hpage, Hok. subst r.
    change (room_of m st1) with (room_of m st) in Hpage.
    change (st_processed_places st1) with (st_processed_places st) in Hpage.
    change (st_leads st1) with (st_leads st) in Hpage.
    destruct Hpage as [Hleads Hseen].
    rewrite records_of_app, collect_app.
    set (got1 := collect (room_of m st) (st_processed_places st)
                   (records_of elements)) in *.
    assert (Hroom2 : room_of m st2 = room_of m st - length got1).
    { unfold room_of. rewrite Hleads, length_app. lia. }
    destruct (full m st2) eqn:Hfull.
    + intros [= <-]. apply full_room in Hfull.
      rewrite <- Hroom2, Hfull, collect_no_room, !app_nil_r.
      split; [exact Hleads|exact Hseen].
    + intros Hrest. apply IH in Hrest. cbn zeta in Hrest.
      rewrite Hroom2, Hseen in Hrest. destruct Hrest as [-> ->].
      rewrite Hleads. split.
      * by rewrite <- app_assoc.
      * rewrite fmap_app, list_to_set_app_L. by rewrite (assoc_L (∪)).
Qed.

(** a loop whose queries all succeed returns *)
Lemma scroll_cycles_returns b m n i st :
  (∀ j, i ≤ j < i + n → is_ok (query_selector_all b j) = true) →
  (scroll_cycles b m n i st).1 = Ok tt.
Proof.
  revert i st. induction n as [|n IH]; intros i st Hq; [reflexivity|].
  rewrite scroll_cycles_S, scroll_cycle_eq. cbn zeta.
  specialize (Hq i ltac:(lia)) as Hi.
  destruct (query_selector_all b i) as [elements|e]; [|discriminate].
  set (st1 := logged _ (logged _ (logged _ st))).
  pose proof (for_elements_ok m elements st1) as Hok.
  destruct (for_elements m elements st1) as [r st2]. cbn [fst] in Hok.
  subst r. destruct (full m st2); [reflexivity|].
  apply IH. intros j Hj. apply Hq. lia.
Qed.

(** a loop that raises, raises what one of its queries raised *)
Lemma scroll_cycles_raises b m n i st e :
  (scroll_cycles b m n i st).1 = Raise e →
  ∃ j, i ≤ j < i + n ∧ query_selector_all b j = Raise e.
Proof.
  revert i st. induction n as [|n IH]; intros i st; [discriminate|].
  rewrite scroll_cycles_S, scroll_cycle_eq. cbn zeta.
  destruct (query_selector_all b i) as [elements|e'] eqn:Hq.
  - set (st1 := logged _ (logged _ (logged _ st))).
    pose proof (for_elements_ok m elements st1) as Hok.
    destruct (for_elements m elements st1) as [r st2]. cbn [fst] in Hok.
    subst r. destruct (full m st2); [discriminate|].
    intros Hr. apply IH in Hr as (j & Hj & Hqj). exists j. split; [lia|done].
  - intros [= ->]. exists i. split; [lia|done].
Qed.

Lemma scrape_body_eq b q l m :
  scrape_body b q l m
    {| st_leads := []; st_processed_places := ∅;
       st_trace := [EvInitBrowser] |} =
  match goto b (search_url q l) with
  | Raise e =>
      (Raise e,
       {| st_leads := []; st_processed_places := ∅;
          st_trace := [EvInitBrowser; EvGoto (search_url q l)] |})
  | Ok _ =>
      match wait_for_selector b SelSearchResults with
      | Raise e => (Raise e, loop_start q l)
      | Ok _ => scroll_cycles b m (cycle_budget m) 0 (loop_start q l)
      end
  end.
Proof.
  unfold scrape_body, log. run_ste.
  destruct (goto b (search_url q l)); [|reflexivity].
  by destruct (wait_for_selector b SelSearchResults).
Qed.

(** when [scrape_businesses] returns: every call on the browser returned,
    and the list is the one the loop built *)
Lemma scrape_businesses_returns b q l m leads :
  (scrape_businesses b q l m).1 = Ok leads ↔
  is_ok (init_browser b) = true ∧
  is_ok (goto b (search_url q l)) = true ∧
  is_ok (wait_for_selector b SelSearchResults) = true ∧
  is_ok (close_browser b) = true ∧
  ∃ st, scroll_cycles b m (cycle_budget m) 0 (loop_start q l) = (Ok tt, st) ∧
        leads = st_leads st.
Proof.
  unfold scrape_businesses. rewrite scrape_body_eq.
  destruct (init_browser b); cbn [is_ok]; [|naive_solver].
  destruct (goto b (search_url q l)); cbn [is_ok];
    [|destruct (close_browser b); naive_solver].
  destruct (wait_for_selector b SelSearchResults); cbn [is_ok];
    [|destruct (close_browser b); naive_solver].
  destruct (scroll_cycles b m (cycle_budget m) 0 (loop_start q l))
    as [[[]|e] st].
  - destruct (close_browser b); cbn [is_ok fst]; [|naive_solver].
    split.
    + intros [= <-]. repeat split; eauto.
    + intros (_ & _ & _ & _ & st' & [= <-] & ->). reflexivity.
  - destruct (close_browser b); cbn [is_ok fst]; naive_solver.
Qed.

End ScrapeOutcomeFacts.

(** ** Further properties of [scrape_businesses] *)
Section ScrapeOutcomeTheorems.
Context `{PyRuntime}.

(** X1. The list that [scrape_businesses] returns is determined by what
    the browser showed: it holds the records of the shown elements in the
    order shown, a record being dropped when an earlier one has its name,
    cut after [max_results] leads. *)
Theorem scrape_businesses_result b q l m leads :
  (scrape_businesses b q l m).1 = Ok leads →
  leads =
  take (Z.to_nat m)
    (first_by_name ∅ (records_of (shown (page_of b) (cycle_budget m)))).
Proof.
  intros (_ & _ & _ & _ & st & Hloop & ->)%scrape_businesses_returns.
  apply scroll_cycles_collect in Hloop as [Hleads _].
  rewrite Hleads, collect_take. unfold room_of, loop_start, shown.
  cbn [st_leads st_processed_places app length]. by rewrite Nat.sub_0_r.
Qed.

(** X2. For [max_results] below 10 the loop has no cycle, so a run that
    returns, returns no lead at all; [POST /scrape] then answers with an
    empty list and [total_found = 0], also for the values 1 to 9 that the
    request schema admits. *)
Theorem scrape_below_ten_is_empty :
  (∀ b q l m leads,
      (m < 10)%Z →
      (scrape_businesses b q l m).1 = Ok leads → leads = []) ∧
  (∀ b uuid4 request app response app',
      (max_results request ≤ 9)%Z →
      scrape_leads b uuid4 request app = (Ok response, app') →
      sr_leads response = [] ∧ sr_total_found response = 0%Z).
Proof.
  assert (Hempty : ∀ b q l m leads,
    (m < 10)%Z → (scrape_businesses b q l m).1 = Ok leads → leads = []).
  { intros b q l m leads Hm Hrun.
    rewrite (scrape_businesses_result _ _ _ _ _ Hrun).
    assert (Hbudget : cycle_budget m = 0).
    { unfold cycle_budget.
      assert (m / 10 < 1)%Z by (apply Z.div_lt_upper_bound; lia). lia. }
    rewrite Hbudget. cbn. by destruct (Z.to_nat m). }
  split; [exact Hempty|].
  intros b uuid4 request app response app' Hm Hrun.
  apply try_or_500_ok, scrape_leads_body_ok in Hrun
    as (leads & Hleads & -> & _).
  apply Hempty in Hleads; [|lia]. subst leads. done.
Qed.

(** X3. Only the browser can make [scrape_businesses] raise: what it
    raises was raised by the start of the browser, the navigation, the
    wait for the results, a query for the result elements or the closing;
    and when all of these return, it returns, whatever happens while the
    single elements are read. *)
Theorem scrape_businesses_raises b q l m :
  (∀ e, (scrape_businesses b q l m).1 = Raise e →
        init_browser b = Raise e ∨
        goto b (search_url q l) = Raise e ∨
        wait_for_selector b SelSearchResults = Raise e ∨
        close_browser b = Raise e ∨
        ∃ i, i < cycle_budget m ∧ query_selector_all b i = Raise e) ∧
  (is_ok (init_browser b) = true →
   is_ok (goto b (search_url q l)) = true →
   is_ok (wait_for_selector b SelSearchResults) = true →
   is_ok (close_browser b) = true →
   (∀ i, i < cycle_budget m → is_ok (query_selector_all b i) = true) →
   ∃ leads, (scrape_businesses b q l m).1 = Ok leads).
Proof.
  split.
  - intros e. unfold scrape_businesses. rewrite scrape_body_eq.
    destruct (init_browser b) as [[]|e0]; [|by intros [= ->]; left].
    destruct (close_browser b) as [[]|ec] eqn:Hclose.
    + destruct (goto b (search_url q l)) as [[]|eg];
        [|by intros [= ->]; right; left].
      destruct (wait_for_selector b SelSearchResults) as [[]|ew];
        [|by intros [= ->]; right; right; left].
      destruct (scroll_cycles b m (cycle_budget m) 0 (loop_start q l))
        as [[[]|el] st] eqn:Hloop; [discriminate|].
      intros [= ->]. do 4 right.
      destruct (scroll_cycles_raises b m (cycle_budget m) 0 (loop_start q l)
                  e) as (i & Hi & Hq); [by rewrite Hloop|].
      exists i. split; [lia|done].
    + intros Hr. do 3 right. left.
      destruct (goto b (search_url q l)) as [[]|eg];
        [|by injection Hr as ->].
      destruct (wait_for_selector b SelSearchResults) as [[]|ew];
        [|by injection Hr as ->].
      destruct (scroll_cycles b m (cycle_budget m) 0 (loop_start q l))
        as [[[]|el] st]; by injection Hr as ->.
  - intros Hinit Hgoto Hwait Hclose Hq.
    pose proof (scroll_cycles_returns b m (cycle_budget m) 0
                  (loop_start q l)) as Hloop.
    destruct (scroll_cycles b m (cycle_budget m) 0 (loop_start q l))
      as [r st] eqn:Hrun. cbn [fst] in Hloop.
    exists (st_leads st). apply scrape_businesses_returns.
    repeat split; try done. exists st. split; [|done].
    rewrite Hrun, Hloop; [done|]. intros j Hj. apply Hq. lia.
Qed.

Lemma cycles_calls_events ks ev :
  ev ∈ Spec.cycles_calls ks →
  ev ∈ [EvScrollResults; EvSleep 1; EvQuerySelectorAll; EvExtract].
Proof.
  unfold Spec.cycles_calls. induction ks as [|k ks IH]; cbn [map concat].
  - intros []%elem_of_nil.
  - rewrite elem_of_app. intros [Hk|Hks]; [|by apply IH].
    unfold Spec.cycle_calls in Hk. rewrite elem_of_app in Hk.
    destruct Hk as [Hk|Hk].
    + set_solver.
    + apply elem_of_replicate in Hk as [-> _]. set_solver.
Qed.

(** X4. A browser that started is closed exactly once, as the last call
    of the run, on every path: after a return, after an exception of the
    navigation, of the wait or of a query; when the start itself raises,
    nothing else is called. *)
Theorem browser_closed_once b q l m :
  (∀ e, init_browser b = Raise e →
        scrape_businesses b q l m = (Raise e, [EvInitBrowser])) ∧
  (is_ok (init_browser b) = true →
   ∃ calls,
     (scrape_businesses b q l m).2 =
       EvInitBrowser :: (calls ++ [EvCloseBrowser]) ∧
     (EvCloseBrowser ∉ calls) ∧ (EvInitBrowser ∉ calls)).
Proof.
  split.
  - intros e He. unfold scrape_businesses. by rewrite He.
  - intros Hinit. unfold scrape_businesses. rewrite scrape_body_eq.
    destruct (init_browser b) as [[]|e0]; [|discriminate].
    assert (Hshape : ∀ (r : Res unit) st calls,
      st_trace st = EvInitBrowser :: calls →
      EvCloseBrowser ∉ calls → EvInitBrowser ∉ calls →
      ∃ calls',
        (let '(r, st) := (r, st) in
         match close_browser b with
         | Ok _ =>
             match r with
             | Ok _ => (Ok (st_leads st), st_trace st ++ [EvCloseBrowser])
             | Raise e => (Raise e, st_trace st ++ [EvCloseBrowser])
             end
         | Raise e => (Raise e, st_trace st ++ [EvCloseBrowser])
         end).2 = EvInitBrowser :: (calls' ++ [EvCloseBrowser]) ∧
        (EvCloseBrowser ∉ calls') ∧ (EvInitBrowser ∉ calls')).
    { intros r st calls Htr Hc Hi. exists calls. rewrite Htr.
      split; [|done]. by destruct (close_browser b), r. }
    destruct (goto b (search_url q l)) as [[]|eg].
    + destruct (wait_for_selector b SelSearchResults) as [[]|ew].
      * destruct (scroll_cycles_trace b m (cycle_budget m) 0
                    (loop_start q l)) as (ks & _ & Htr).
        destruct (scroll_cycles b m (cycle_budget m) 0 (loop_start q l))
          as [r st]. cbn [snd] in Htr.
        apply (Hshape r st
                 ([EvGoto (search_url q l); EvSleep 2; EvWaitForSelector]
                  ++ Spec.cycles_calls ks)); [by rewrite Htr| |].
        -- rewrite not_elem_of_app. split; [set_solver|].
           intros Hin%cycles_calls_events. set_solver.
        -- rewrite not_elem_of_app. split; [set_solver|].
           intros Hin%cycles_calls_events. set_solver.
      * apply (Hshape (Raise ew) (loop_start q l)
                 [EvGoto (search_url q l); EvSleep 2; EvWaitForSelector]);
          [done|set_solver..].
    + apply (Hshape (Raise eg) _ [EvGoto (search_url q l)]);
        [done|set_solver..].
Qed.

End ScrapeOutcomeTheorems.

(** ** More on the regular expressions and on [strip] *)
Section MoreStringFacts.




Lemma str_chars s : PyStr.str (PyStr.chars s) = s.
Proof. apply string_of_list_ascii_of_string. Qed.


Lemma search_from_found p s ms :
  Re.search_from p s = Some ms →
  ∃ before s', s = before ++ s' ∧ Re.match_here p s' = Some ms.
Proof.
  induction s as [|c s IH]; cbn [Re.search_from].
  - destruct (Re.match_here p []) eqn:Hm; [|discriminate].
    intros [= <-]. by exists [], [].
  - destruct (Re.match_here p (c :: s)) eqn:Hm.
    + intros [= <-]. by exists [], (c :: s).
    + intros (before & s' & -> & Hs')%IH. by exists (c :: before), s'.
Qed.

Lemma first_down_found {X} (f : nat → option X) lo gap x :
  Re.first_down f lo gap = Some x →
  ∃ n, lo ≤ n ≤ lo + gap ∧ f n = Some x.
Proof.
  induction gap as [|gap IH]; cbn [Re.first_down].
  - destruct (f (lo + 0)) eqn:Hf; [|discriminate].
    intros [= <-]. exists (lo + 0). split; [lia|done].
  - destruct (f (lo + S gap)) eqn:Hf.
    + intros [= <-]. exists (lo + S gap). split; [lia|done].
    + intros (n & Hn & Hfn)%IH. exists n. split; [lia|done].
Qed.

(** a literal character matches itself and nothing else *)
Lemma match_here_lit c p s ms :
  Re.match_here ((Re.Lit c, Re.One) :: p) s = Some ms →
  ∃ s' ms', s = c :: s' ∧ Re.match_here p s' = Some ms' ∧ ms = [c] :: ms'.
Proof.
  cbn [Re.match_here Re.at_most Re.at_least].
  destruct (_ <? 1) eqn:Hlt; [discriminate|]. apply Nat.ltb_ge in Hlt.
  intros (n & Hn & Hf)%first_down_found.
  assert (n = 1) as -> by lia. clear Hn.
  unfold Re.run in Hlt. destruct s as [|c' s']; [cbn in Hlt; lia|].
  cbn [PyStr.take_while Re.accepts] in Hlt.
  case_bool_decide as Hc; [subst c'|cbn in Hlt; lia].
  cbn [drop take] in Hf. rewrite drop_0, take_0 in Hf.
  destruct (Re.match_here p s') as [ms'|] eqn:Hp; [|discriminate].
  injection Hf as <-. by exists s', ms'.
Qed.

(** a last item under [+] takes the whole run, which is not empty *)
Lemma match_here_plus k s ms :
  Re.match_here [(k, Re.Plus)] s = Some ms →
  ms = [PyStr.take_while (Re.accepts k) s] ∧
  PyStr.take_while (Re.accepts k) s ≠ [].
Proof.
  cbn [Re.match_here Re.at_most Re.at_least].
  destruct (_ <? 1) eqn:Hlt; [discriminate|]. apply Nat.ltb_ge in Hlt.
  rewrite first_down_some.
  - replace (1 + (Re.run k s - 1)) with (Re.run k s) by lia.
    unfold Re.run. rewrite take_run. intros [= <-]. split; [done|].
    intros Hnil. unfold Re.run in Hlt. rewrite Hnil in Hlt. cbn in Hlt. lia.
  - by replace (1 + (Re.run k s - 1)) with (Re.run k s) by lia.
Qed.

(** what the place pattern captures: after the first [place/] at which it
    matches, the characters up to the next slash, at least one *)
Lemma search_place u ms :
  Re.search Re.place_re u = Some ms →
  ∃ before rest,
    PyStr.chars u = before ++ PyStr.chars "place/" ++ rest ∧
    Re.group_from 6 ms =
      PyStr.str (PyStr.take_while (λ c, negb (bool_decide (c = "/"%char)))
                   rest) ∧
    PyStr.take_while (λ c, negb (bool_decide (c = "/"%char))) rest ≠ [].
Proof.
  unfold Re.search. intros (before & s' & Hu & Hm)%search_from_found.
  unfold Re.place_re, Re.lits in Hm. cbn [PyStr.chars list_ascii_of_string
    map app] in Hm.
  do 6 (apply match_here_lit in Hm as (? & ? & -> & Hm & ->)).
  apply match_here_plus in Hm as [-> Hne].
  eexists before, _. split; [exact Hu|]. split; [|exact Hne].
  unfold Re.group_from. cbn [drop concat]. by rewrite app_nil_r.
Qed.

End MoreStringFacts.

(** ** Further properties of [_extract_business_data] *)
Section ExtractTheorems.
Context `{PyRuntime}.

Lemma preserves_establishes {S A} (P : S → Prop) (m : StE S A) :
  preserves P m → establishes P P m.
Proof. intros Hm. exact Hm. Qed.

Lemma establishes_bind {S A B} (Pre Mid Post : S → Prop)
    (m : StE S A) (k : A → StE S B) :
  establishes Pre Mid m →
  (∀ s, Mid s → Post s) →
  (∀ a, establishes Mid Post (k a)) →
  establishes Pre Post (m ≫= k).
Proof.
  intros Hm Hweak Hk s Hs. rewrite ste_bind_eq.
  specialize (Hm s Hs). destruct (m s) as [[a|e] s']; cbn [snd] in *.
  - by apply Hk.
  - by apply Hweak.
Qed.

(** a property of the fresh dictionary that every step keeps holds of the
    record returned *)
Lemma extract_some_inv (P : BusinessData → Prop) element d :
  (∀ n, P (new_business_data n)) →
  preserves P (fill_business_data element) →
  _extract_business_data element = Some d → P d.
Proof.
  intros Hnew Hkeeps (n & Hfill)%extract_some_fill.
  change d with (Ok tt, d).2. rewrite <- Hfill. apply Hkeeps, Hnew.
Qed.

Lemma scrape_businesses_scraped_from b q l m leads :
  (scrape_businesses b q l m).1 = Ok leads →
  Forall (scraped_from b) leads.
Proof.
  intros Hok.
  destruct (scrape_businesses_inv
              (λ st, Forall (scraped_from b) (st_leads st))
              b q l m leads) as (st & Hst & ->);
    [| | |exact Hok|exact Hst].
  - intros ev st Hst. exact Hst.
  - intros i elements element st Hq Hel _ Hst.
    by apply visit_scraped_from with (i := i) (elements := elements).
  - apply Forall_nil_2.
Qed.

(** the steps of the list part, unfolded for the tactics below *)
Ltac unfold_steps :=
  unfold fill_business_data, extract_address, extract_rating,
    extract_reviews, extract_category, extract_details, child_text.

(** X5. The scraper never fills [email] or [coordinates]: in every lead
    that [scrape_businesses] returns both are [None]. *)
Theorem scraper_leaves_email_and_coordinates b q l m leads lead :
  (scrape_businesses b q l m).1 = Ok leads →
  lead ∈ leads →
  email lead = None ∧ coordinates lead = None.
Proof.
  intros Hok Hin. apply scrape_businesses_scraped_from in Hok.
  rewrite Forall_forall in Hok.
  destruct (Hok lead Hin) as (i & elements & element & d & _ & _ & Hd & ->).
  split; [reflexivity|]. cbn [coordinates lead_of].
  apply (extract_some_inv (λ d, bd_coordinates d = None) element d);
    [done| |exact Hd].
  unfold_steps. preserves_by ltac:(intros ? Hs; exact Hs).
Qed.







(** X7. The place id of a record is cut out of its map URL: the URL holds
    the text [place/] and the place id is what follows it up to the next
    slash, at least one character; and a map URL is stored only if it
    holds [place/]. *)
Theorem place_id_from_url element d :
  _extract_business_data element = Some d →
  (∀ p, bd_place_id d = Some p →
        ∃ u before rest,
          bd_google_maps_url d = Some u ∧
          PyStr.chars u = before ++ PyStr.chars "place/" ++ rest ∧
          p = PyStr.str
                (PyStr.take_while (λ c, negb (bool_decide (c = "/"%char)))
                   rest) ∧
          p ≠ EmptyString) ∧
  (∀ u, bd_google_maps_url d = Some u →
        PyStr.contains "place/" u = true).
Proof.
  intros (n & Hfill)%extract_some_fill.
  apply fill_business_data_ok in Hfill
    as (d1 & d2 & d3 & d4 & H1 & H2 & H3 & H4 & ->).
  assert (Hnone : bd_place_id d4 = None ∧ bd_google_maps_url d4 = None).
  { assert (Hkeeps : ∀ step, step ∈ [extract_address element;
                                     extract_rating element;
                                     extract_reviews element;
                                     extract_category element] →
      preserves (λ d, bd_place_id d = None ∧ bd_google_maps_url d = None)
        step).
    { intros step Hstep. repeat apply elem_of_cons in Hstep as [->|Hstep];
        [..|by apply elem_of_nil in Hstep];
        unfold_steps; preserves_by ltac:(intros ? Hs; exact Hs). }
    change d4 with (Ok tt, d4).2. rewrite <- H4. apply Hkeeps; [set_solver|].
    change d3 with (Ok tt, d3).2. rewrite <- H3. apply Hkeeps; [set_solver|].
    change d2 with (Ok tt, d2).2. rewrite <- H2. apply Hkeeps; [set_solver|].
    change d1 with (Ok tt, d1).2. rewrite <- H1. apply Hkeeps; [set_solver|].
    done. }
  clear H1 H2 H3 H4. revert d4 Hnone.
  set (P0 := λ d : BusinessData,
         bd_place_id d = None ∧ bd_google_maps_url d = None).
  set (J := place_id_cut).
  change (establishes P0 J (extract_details element)).
  assert (Hweak : ∀ d, P0 d → J d).
  { intros d [Hp Hu]. unfold J, place_id_cut. rewrite Hp, Hu. done. }
  unfold extract_details.
  apply establishes_bind with (Mid := P0);
    [apply preserves_lift|exact Hweak|intros page].
  apply establishes_bind with (Mid := P0);
    [apply preserves_lift|exact Hweak|intros phone_element].
  apply establishes_bind with (Mid := P0);
    [apply preserves_establishes;
     preserves_by ltac:(intros ? Hs; exact Hs)|exact Hweak|intros _].
  apply establishes_bind with (Mid := P0);
    [apply preserves_lift|exact Hweak|intros website_element].
  apply establishes_bind with (Mid := P0);
    [apply preserves_establishes;
     preserves_by ltac:(intros ? Hs; exact Hs)|exact Hweak|intros _].
  cbn zeta.
  apply establishes_bind with (Mid := J);
    [|done|intros _; apply preserves_lift].
  intros s [Hplace Hurl].
  destruct (PyStr.contains "place/" (page_url page)) eqn:Hc;
    [|by apply Hweak].
  run_ste. unfold J, place_id_cut.
  destruct (Re.search Re.place_re (page_url page)) as [ms|] eqn:Hsearch;
    run_ste;
    cbn [snd bd_place_id bd_google_maps_url set_place_id
         set_google_maps_url]; rewrite ?Hplace.
  - split; [|by intros u [= <-]].
    intros p [= <-].
    apply search_place in Hsearch as (before & rest & Hu & Hg & Hne).
    exists (page_url page), before, rest.
    split; [done|]. split; [done|]. split; [done|].
    rewrite Hg. intros Hempty. apply Hne.
    apply (f_equal PyStr.chars) in Hempty.
    unfold PyStr.chars, PyStr.str in Hempty.
    by rewrite list_ascii_of_string_of_list_ascii in Hempty.
  - split; [done|]. by intros u [= <-].
Qed.



End ExtractTheorems.

(** ** Further properties of the handlers *)
Section MainTheorems.
Context `{PyRuntime}.

Lemma scrape_leads_eq b uuid4 request app :
  scrape_leads b uuid4 request app =
  match (scrape_businesses b (query request) (location request)
           (max_results request)).1 with
  | Ok leads =>
      (Ok {| sr_scrape_id := uuid4; sr_leads := leads;
             sr_total_found := Z.of_nat (length leads);
             sr_status := "success" |},
       {| leads_storage := <[uuid4 := leads]> (leads_storage app);
          world := world app |})
  | Raise e =>
      (Raise (HTTPException 500 ("Scraping failed: " +:+ exc_str e)), app)
  end.
Proof.
  unfold scrape_leads, try_or_500, scrape_leads_body, store. run_ste.
  by destruct (scrape_businesses _ _ _ _).1.
Qed.

Lemma enrich_leads_eq enricher request app :
  enrich_leads enricher request app =
  match leads_storage app !! er_scrape_id request with
  | None =>
      (Raise (HTTPException 500
                ("Enrichment failed: " +:+
                 http_exception_str 404 "Scrape ID not found")), app)
  | Some leads =>
      match enricher leads (hunter_api_key request) with
      | Ok enriched =>
          (Ok {| en_scrape_id := er_scrape_id request;
                 enriched_leads := enriched;
                 enrichment_count := Z.of_nat (length (with_email enriched));
                 en_status := "success" |},
           {| leads_storage :=
                <[er_scrape_id request := enriched]> (leads_storage app);
              world := world app |})
      | Raise e =>
          (Raise (HTTPException 500
                    ("Enrichment failed: " +:+ exc_str e)), app)
      end
  end.
Proof.
  unfold enrich_leads, try_or_500, enrich_leads_body, store, not_found,
    raise. run_ste.
  destruct (leads_storage app !! er_scrape_id request) as [leads|];
    [|reflexivity].
  by destruct (enricher leads (hunter_api_key request)).
Qed.

(** X9. A [POST /scrape] that fails changes nothing; one that succeeds
    changes the entry of the generated identifier only: every other batch
    and the world outside are as before. *)
Theorem scrape_leads_frame b uuid4 request app :
  (∀ e app', scrape_leads b uuid4 request app = (Raise e, app') →
             app' = app) ∧
  (∀ response app',
      scrape_leads b uuid4 request app = (Ok response, app') →
      world app' = world app ∧
      dom (leads_storage app') = dom (leads_storage app) ∪ {[ uuid4 ]} ∧
      ∀ other, other ≠ uuid4 →
               leads_storage app' !! other = leads_storage app !! other).
Proof.
  rewrite scrape_leads_eq.
  destruct (scrape_businesses _ _ _ _).1 as [leads|e0]; split;
    try discriminate.
  - intros response app' [= <- <-]. cbn [world leads_storage].
    split; [reflexivity|]. split.
    + rewrite dom_insert_L. set_solver.
    + intros other Hother. by apply lookup_insert_ne.
  - by intros e app' [= _ <-].
Qed.

(** X10. A [POST /enrich] that succeeds was given a stored identifier; it
    replaces the batch of that identifier by what the enricher returned
    and leaves the other batches, the set of identifiers and the world as
    they were; its [enrichment_count] is the number of returned leads with
    a non-empty email, at most their number.  One that fails changes
    nothing. *)
Theorem enrich_leads_effect enricher request app :
  (∀ response app',
      enrich_leads enricher request app = (Ok response, app') →
      (∃ leads,
          leads_storage app !! er_scrape_id request = Some leads ∧
          enricher leads (hunter_api_key request) =
            Ok (enriched_leads response)) ∧
      en_scrape_id response = er_scrape_id request ∧
      leads_storage app' =
        <[er_scrape_id request := enriched_leads response]>
          (leads_storage app) ∧
      dom (leads_storage app') = dom (leads_storage app) ∧
      world app' = world app ∧
      enrichment_count response =
        Z.of_nat (length (with_email (enriched_leads response))) ∧
      (0 ≤ enrichment_count response ≤
       Z.of_nat (length (enriched_leads response)))%Z) ∧
  (∀ e app', enrich_leads enricher request app = (Raise e, app') →
             app' = app).
Proof.
  rewrite enrich_leads_eq.
  destruct (leads_storage app !! er_scrape_id request) as [leads|] eqn:Hl.
  - destruct (enricher leads (hunter_api_key request)) as [enriched|e0]
      eqn:He; split; try discriminate.
    + intros response app' [= <- <-].
      cbn [en_scrape_id enriched_leads enrichment_count leads_storage world].
      split; [by exists leads|]. split; [reflexivity|].
      split; [reflexivity|]. split.
      { rewrite dom_insert_L. apply elem_of_dom_2 in Hl. set_solver. }
      split; [reflexivity|]. split; [reflexivity|].
      pose proof (length_filter
                    (fun lead => PyStr.opt_truthy (email lead) = true)
                    enriched) as Hle.
      unfold with_email. lia.
    + by intros e app' [= _ <-].
  - split; [discriminate|]. by intros e app' [= _ <-].
Qed.

(** X11. After a [POST /enrich] that succeeded, [GET /leads] with the
    same identifier returns the enriched leads and their number. *)
Theorem enrich_then_get enricher request app response app' :
  enrich_leads enricher request app = (Ok response, app') →
  get_leads (er_scrape_id request) app' =
  (Ok {| lr_scrape_id := er_scrape_id request;
         lr_leads := enriched_leads response;
         lr_total := Z.of_nat (length (enriched_leads response)) |}, app').
Proof.
  rewrite enrich_leads_eq.
  destruct (leads_storage app !! er_scrape_id request) as [leads|];
    [|discriminate].
  destruct (enricher leads (hunter_api_key request)) as [enriched|e0];
    [|discriminate].
  intros [= <- <-]. rewrite get_leads_eq. cbn [leads_storage enriched_leads].
  by rewrite lookup_insert_eq.
Qed.

Lemma export_leads_state export_manager request app :
  leads_storage (export_leads export_manager request app).2 =
    leads_storage app ∧
  (world (export_leads export_manager request app).2 = world app ∨
   ∃ leads filename r,
     leads_storage app !! ex_scrape_id request = Some leads ∧
     world (export_leads export_manager request app).2 =
       (export_to_csv export_manager leads filename (world app)).2 ∧
     (export_to_csv export_manager leads filename (world app)).1 = r).
Proof.
  unfold export_leads. rewrite try_or_500_state.
  unfold export_leads_body, in_world, not_found, raise. run_ste.
  destruct (leads_storage app !! ex_scrape_id request) as [leads|] eqn:Hl;
    [|by split; [|left]].
  destruct (String.eqb (format request) "csv").
  - destruct (export_to_csv export_manager leads (filename request)
                (world app)) as [[p|e] w'] eqn:Hcsv; cbn [snd leads_storage
      world]; (split; [reflexivity|]); right;
      exists leads, (filename request); rewrite Hcsv; eauto.
  - destruct (String.eqb (format request) "sheets"); [|by split; [|left]].
    destruct (negb _); [by split; [|left]|].
    unfold export_to_sheets.
    destruct (export_to_csv export_manager leads
                (Some ("leads_for_sheets_" +:+ now (world app) +:+ ".csv"))
                (world app)) as [[p|e] w'] eqn:Hcsv;
      cbn [snd leads_storage world]; (split; [reflexivity|]); right;
      exists leads,
        (Some ("leads_for_sheets_" +:+ now (world app) +:+ ".csv"));
      rewrite Hcsv; eauto.
Qed.

(** X12. A [POST /export] never touches [leads_storage], whatever format
    is asked for and whether it succeeds or fails; and outside it writes
    at most one file: either no file changes, or one path ending in [.csv]
    now holds the header and the rows of the stored leads of that
    identifier. *)
Theorem export_leads_frame export_manager request app :
  leads_storage (export_leads export_manager request app).2 =
    leads_storage app ∧
  (files (world (export_leads export_manager request app).2) =
     files (world app) ∨
   ∃ path leads,
     leads_storage app !! ex_scrape_id request = Some leads ∧
     PyStr.endswith path ".csv" = true ∧
     files (world (export_leads export_manager request app).2) =
       <[path := headers :: map row_of leads]> (files (world app))).
Proof.
  destruct (export_leads_state export_manager request app)
    as [Hstorage [Hworld|(leads & filename & r & Hl & Hworld & _)]].
  - split; [exact Hstorage|]. left. by rewrite Hworld.
  - split; [exact Hstorage|]. rewrite Hworld, export_to_csv_eq. cbn zeta.
    destruct (open_for_write (world app) _); cbn [snd files]; [|by left].
    right. eexists _, leads. split; [exact Hl|]. split; [|reflexivity].
    apply path_join_endswith, csv_filename_csv.
Qed.

Lemma handle_dom rq app :
  dom (leads_storage (handle rq app)) ⊆
    dom (leads_storage app) ∪ added_by rq ∧
  (keeps_keys rq →
   dom (leads_storage app) ⊆ dom (leads_storage (handle rq app))).
Proof.
  destruct rq as [b uuid4 request|enricher request|em request|sid|sid];
    cbn [handle added_by keeps_keys].
  - rewrite scrape_leads_eq.
    destruct (scrape_businesses _ _ _ _).1; cbn [snd leads_storage];
      rewrite ?dom_insert_L; set_solver.
  - rewrite enrich_leads_eq.
    destruct (leads_storage app !! er_scrape_id request) eqn:Hl;
      [|set_solver].
    apply elem_of_dom_2 in Hl.
    destruct (enricher _ _); cbn [snd leads_storage];
      rewrite ?dom_insert_L; set_solver.
  - destruct (export_leads_state em request app) as [-> _]. set_solver.
  - rewrite get_leads_eq. destruct (leads_storage app !! sid); set_solver.
  - rewrite delete_leads_eq.
    destruct (leads_storage app !! sid); cbn [snd leads_storage];
      rewrite ?dom_delete_L; set_solver.
Qed.

(** X13. Identifiers come and go in one way each: handling a request adds
    no identifier to [leads_storage] except the one a [POST /scrape]
    generates, and removes none unless the request is a [DELETE]. *)
Theorem storage_keys rq app :
  dom (leads_storage (handle rq app)) ⊆
    dom (leads_storage app) ∪ added_by rq ∧
  (keeps_keys rq →
   dom (leads_storage app) ⊆ dom (leads_storage (handle rq app))).
Proof. apply handle_dom. Qed.

(** X14. A deleted batch stays deleted: after a [DELETE] that succeeded,
    [GET] and [DELETE] with that identifier answer 404, at once and after
    any requests among which no scrape generates the identifier again. *)
Theorem delete_then_gone scrape_id app rqs :
  scrape_id ∈ dom (leads_storage app) →
  Forall (λ rq, scrape_id ∉ added_by rq) rqs →
  let app' := handle_all rqs (delete_leads scrape_id app).2 in
  (get_leads scrape_id app').1 =
    Raise (HTTPException 404 "Scrape ID not found") ∧
  (delete_leads scrape_id app').1 =
    Raise (HTTPException 404 "Scrape ID not found").
Proof.
  intros Hin Hrqs. cbn zeta.
  assert (Hgone : scrape_id ∉
            dom (leads_storage
                   (handle_all rqs (delete_leads scrape_id app).2))).
  { assert (Hstart : scrape_id ∉
              dom (leads_storage (delete_leads scrape_id app).2)).
    { rewrite delete_leads_eq. apply elem_of_dom in Hin as [leads ->].
      cbn [snd leads_storage]. rewrite dom_delete_L. set_solver. }
    revert Hstart. generalize (delete_leads scrape_id app).2.
    unfold handle_all. induction Hrqs as [|rq rqs Hrq _ IH];
      intros app0 Hstart; [exact Hstart|].
    cbn [foldl]. apply IH.
    destruct (handle_dom rq app0) as [Hsub _]. set_solver. }
  apply not_elem_of_dom in Hgone.
  set (app' := handle_all rqs (delete_leads scrape_id app).2) in *.
  by rewrite get_leads_eq, (delete_leads_eq scrape_id app'), Hgone.
Qed.

End MainTheorems.

(** ** The other exporters *)
Section MoreExporterFacts.
Context `{PyRuntime}.

Lemma starts_with_split p s :
  PyStr.starts_with p s = true → ∃ t, s = p ++ t.
Proof.
  revert s. induction p as [|a p IH]; intros s; [by exists s|].
  destruct s as [|b s]; [discriminate|]. cbn.
  intros [->%bool_decide_eq_true (t & ->)%IH]%andb_true_iff. by exists t.
Qed.

Lemma endswith_iff s suffix :
  PyStr.endswith s suffix = true ↔
  ∃ before, PyStr.chars s = before ++ PyStr.chars suffix.
Proof.
  unfold PyStr.endswith. split.
  - intros (t & Ht)%starts_with_split. exists (rev t).
    apply (f_equal (@rev ascii)) in Ht.
    by rewrite rev_involutive, rev_app_distr, rev_involutive in Ht.
  - intros [before ->]. rewrite rev_app_distr.
    apply starts_with_app, starts_with_refl.
Qed.

(** replacing [.xlsx] by [.csv] in a text that ends in [.xlsx] gives a
    text that ends in [.csv] *)
Lemma replace_xlsx_end before :
  ∃ out,
    PyText.replace_from (PyStr.chars ".xlsx") (PyStr.chars ".csv") 0
      (before ++ PyStr.chars ".xlsx") = out ++ PyStr.chars ".csv".
Proof.
  remember (length before) as n eqn:Hn. revert before Hn.
  induction n as [n IH] using lt_wf_ind. intros before Hn.
  destruct before as [|c before]; [by exists []|].
  cbn [app PyText.replace_from].
  destruct (PyStr.starts_with _ _) eqn:Hstart.
  - cbn [PyStr.chars list_ascii_of_string PyStr.starts_with] in Hstart.
    apply andb_true_iff in Hstart as [_ Hstart].
    do 4 (destruct before as [|? before];
          [cbn in Hstart; discriminate|];
          cbn [app PyStr.starts_with] in Hstart;
          apply andb_true_iff in Hstart as [_ Hstart]).
    cbn [PyStr.chars list_ascii_of_string length Nat.sub app
         PyText.replace_from].
    destruct (IH (length before) ltac:(cbn in Hn; lia) before eq_refl)
      as [out Hout].
    cbn [PyStr.chars list_ascii_of_string] in Hout. rewrite Hout.
    eexists (_ :: _ :: _ :: _ :: out). reflexivity.
  - destruct (IH (length before) ltac:(cbn in Hn; lia) before eq_refl)
      as [out Hout].
    rewrite Hout. by exists (c :: out).
Qed.

Lemma excel_csv_filename_csv w filename :
  PyStr.endswith (excel_csv_filename w filename) ".csv" = true.
Proof.
  unfold excel_csv_filename. cbn zeta.
  set (chosen := if PyStr.opt_truthy filename then _ else _).
  set (named := if PyStr.endswith chosen ".xlsx" then _ else _).
  assert (Hnamed : PyStr.endswith named ".xlsx" = true).
  { unfold named. destruct (PyStr.endswith chosen ".xlsx") eqn:Hend;
      [exact Hend|]. apply endswith_app, endswith_refl. }
  apply endswith_iff in Hnamed as [before Hbefore].
  apply endswith_iff. unfold PyText.replace. rewrite Hbefore.
  destruct (replace_xlsx_end before) as [out Hout]. exists out.
  rewrite Hout. apply list_ascii_of_string_of_list_ascii.
Qed.

Lemma truthy_of_endswith s :
  PyStr.endswith s ".csv" = true → PyStr.truthy s = true.
Proof.
  intros [before Hs]%endswith_iff. destruct s; [|done].
  by destruct before.
Qed.

(** X15. [export_to_excel] writes no workbook: it writes what
    [export_to_csv] writes, under the given name (with [.xlsx] appended
    when missing) in which every [.xlsx] is replaced by [.csv]; that name
    ends in [.csv], so nothing more is appended to it, and the path
    returned ends in [.csv]. *)
Theorem export_to_excel_writes_csv self leads filename w :
  export_to_excel self leads filename w =
    export_to_csv self leads (Some (excel_csv_filename w filename)) w ∧
  csv_filename w (Some (excel_csv_filename w filename)) =
    excel_csv_filename w filename ∧
  (∀ path w',
      export_to_excel self leads filename w = (Ok path, w') →
      path = path_join (export_dir self) (excel_csv_filename w filename) ∧
      PyStr.endswith path ".csv" = true ∧
      PyStr.endswith path ".xlsx" = false ∧
      files w' !! path = Some (headers :: map row_of leads)).
Proof.
  assert (Hname : csv_filename w (Some (excel_csv_filename w filename)) =
                  excel_csv_filename w filename).
  { unfold csv_filename. cbn [PyStr.opt_truthy PyStr.or_empty].
    pose proof (excel_csv_filename_csv w filename) as Hend.
    by rewrite (truthy_of_endswith _ Hend), Hend. }
  split; [reflexivity|]. split; [exact Hname|].
  intros path w'.
  change (export_to_excel self leads filename w)
    with (export_to_csv self leads
            (Some (excel_csv_filename w filename)) w).
  rewrite export_to_csv_eq, Hname. cbn zeta.
  destruct (open_for_write w _); [|discriminate].
  intros [= <- <-].
  assert (Hend : PyStr.endswith
            (path_join (export_dir self) (excel_csv_filename w filename))
            ".csv" = true)
    by apply path_join_endswith, excel_csv_filename_csv.
  split; [reflexivity|]. split; [exact Hend|]. split.
  - destruct (PyStr.endswith _ ".xlsx") eqn:Hx; [|reflexivity].
    apply endswith_iff in Hend as [b1 H1].
    apply endswith_iff in Hx as [b2 H2]. rewrite H1 in H2.
    apply (f_equal (@rev ascii)) in H2.
    rewrite !rev_app_distr in H2. cbn in H2. discriminate.
  - cbn [files]. apply lookup_insert_eq.
Qed.

Lemma json_filename_json w filename :
  PyStr.endswith (json_filename w filename) ".json" = true.
Proof.
  unfold json_filename. cbn zeta.
  set (chosen := if PyStr.opt_truthy filename then _ else _).
  destruct (PyStr.endswith chosen ".json") eqn:Hend; [exact Hend|].
  apply endswith_app, endswith_refl.
Qed.

Lemma export_to_json_eq self leads filename w :
  export_to_json self leads filename w =
  let path := path_join (export_dir self) (json_filename w filename) in
  match json_open_for_write w path with
  | Ok _ =>
      (Ok path,
       {| json_files := <[path := map lead_dict leads]> (json_files w);
          json_now := json_now w;
          json_open_for_write := json_open_for_write w |})
  | Raise e => (Raise e, w)
  end.
Proof.
  unfold export_to_json. run_ste.
  destruct (json_open_for_write w _); reflexivity.
Qed.

Lemma opt_value_inj {A} (f : A → Value) x y :
  (∀ a b, f a = f b → a = b) → (∀ a, f a ≠ VNone) →
  opt_value f x = opt_value f y → x = y.
Proof.
  intros Hinj Hsome. destruct x as [a|], y as [b|]; cbn.
  - by intros ->%Hinj.
  - by intros ?%Hsome.
  - intros Heq. symmetry in Heq. by apply Hsome in Heq.
  - done.
Qed.

(** a lead can be read back from its dictionary *)
Lemma lead_dict_inj lead1 lead2 :
  lead_dict lead1 = lead_dict lead2 → lead1 = lead2.
Proof.
  destruct lead1 as [n1 a1 p1 w1 e1 r1 c1 k1 g1 i1 o1],
           lead2 as [n2 a2 p2 w2 e2 r2 c2 k2 g2 i2 o2].
  unfold lead_dict. cbn [name address phone website email rating
    reviews_count category google_maps_url place_id coordinates].
  intros Heq. injection Heq as -> Ha Hp He Hw Hk Hr Hc Hg Hi Ho.
  apply opt_value_inj in Ha, Hp, He, Hw, Hk, Hr, Hc, Hg, Hi, Ho;
    try (by intros ?? [=]); try done.
  by subst.
Qed.

(** X16. [export_to_json] writes, under the path it returns, one
    dictionary per lead in the order of the list, each with the same
    eleven keys in the same order, a missing value being [None]; the path
    ends in [.json]; every other file is as before, and nothing changes
    when the file cannot be opened.  The dictionary loses nothing: two
    leads with the same dictionary are the same lead. *)
Theorem export_to_json_file self leads filename w :
  (∀ path w',
      export_to_json self leads filename w = (Ok path, w') →
      path = path_join (export_dir self) (json_filename w filename) ∧
      PyStr.endswith path ".json" = true ∧
      json_files w' !! path = Some (map lead_dict leads) ∧
      ∀ other, other ≠ path → json_files w' !! other = json_files w !! other) ∧
  (∀ e w', export_to_json self leads filename w = (Raise e, w') → w' = w) ∧
  (∀ lead, map fst (lead_dict lead) = lead_dict_keys) ∧
  (∀ lead1 lead2, lead_dict lead1 = lead_dict lead2 → lead1 = lead2).
Proof.
  rewrite export_to_json_eq. cbn zeta.
  split; [|split; [|split]].
  - intros path w'. destruct (json_open_for_write w _); [|discriminate].
    intros [= <- <-]. cbn [json_files]. split; [reflexivity|]. split.
    + apply path_join_endswith, json_filename_json.
    + split; [apply lookup_insert_eq|].
      intros other Hother. by apply lookup_insert_ne.
  - intros e w'. destruct (json_open_for_write w _); [discriminate|].
    by intros [= _ <-].
  - reflexivity.
  - apply lead_dict_inj.
Qed.

Lemma csv_filename_given w1 w2 filename :
  PyStr.opt_truthy filename = true →
  csv_filename w1 filename = csv_filename w2 filename.
Proof. unfold csv_filename. by intros ->. Qed.

(** X17. [export_to_csv] writes one path: every other file, the clock and
    the rights to open files are as before, and nothing at all changes
    when the file cannot be opened.  A file that exists under the path is
    replaced: a later export under the same given name leaves the rows of
    its own list only. *)
Theorem export_to_csv_frame self leads filename w :
  (∀ e w', export_to_csv self leads filename w = (Raise e, w') → w' = w) ∧
  (∀ path w',
      export_to_csv self leads filename w = (Ok path, w') →
      now w' = now w ∧ open_for_write w' = open_for_write w ∧
      (∀ other, other ≠ path → files w' !! other = files w !! other) ∧
      ∀ leads2 w2 u,
        PyStr.opt_truthy filename = true →
        files w2 = files w' →
        open_for_write w2 path = Ok u →
        ∃ w'', export_to_csv self leads2 filename w2 = (Ok path, w'') ∧
               files w'' = <[path := headers :: map row_of leads2]> (files w)).
Proof.
  rewrite export_to_csv_eq. cbn zeta. split.
  - intros e w'. destruct (open_for_write w _); [discriminate|].
    by intros [= _ <-].
  - intros path w'. destruct (open_for_write w _) as [[]|] eqn:Hopen;
      [|discriminate].
    intros [= <- <-]. cbn [now open_for_write files].
    split; [reflexivity|]. split; [reflexivity|]. split.
    + intros other Hother. by apply lookup_insert_ne.
    + intros leads2 w2 u Hgiven Hfiles Hopen2.
      rewrite export_to_csv_eq. cbn zeta.
      rewrite (csv_filename_given w2 w filename Hgiven), Hopen2.
      eexists. split; [reflexivity|]. cbn [files].
      rewrite Hfiles. apply insert_insert_eq.
Qed.

End MoreExporterFacts.

(** ** The summary and the validation *)
Section ReportFacts.
Context `{PyRuntime}.
Variable percent : Z -> Z -> float.
Variable rounded_mean : list float -> float.
Variable email_matches : string -> bool.

Lemma count_with_bounds field leads :
  (0 ≤ count_with field leads ≤ Z.of_nat (length leads))%Z.
Proof.
  unfold count_with.
  pose proof (length_filter
                (fun l => PyStr.opt_truthy (field l) = true) leads). lia.
Qed.

(** the loop over the categories, from any dictionary [acc] *)
Lemma count_categories_from acc leads c :
  foldl (fun categories lead =>
           if PyStr.opt_truthy (category lead)
           then count_category categories (PyStr.or_empty (category lead))
           else categories)
        acc leads !! c =
  if PyStr.truthy c
  then match category_count c leads with
       | 0 => acc !! c
       | S k => Some (default 0 (acc !! c) + Z.of_nat (S k))%Z
       end
  else acc !! c.
Proof.
  revert acc. induction leads as [|lead leads IH]; intros acc.
  - cbn. by destruct (PyStr.truthy c).
  - cbn [foldl]. rewrite IH. clear IH. unfold category_count.
    rewrite filter_cons.
    destruct (category lead) as [c'|] eqn:Hcat; cbn [PyStr.opt_truthy
      PyStr.or_empty].
    + destruct (PyStr.truthy c') eqn:Hc'.
      * unfold count_category. destruct (decide (c' = c)) as [->|Hne].
        -- rewrite Hc', decide_True by done. rewrite lookup_insert_eq.
           cbn [length default].
           destruct (length (filter _ leads)); unfold id; f_equal; lia.
        -- rewrite decide_False by congruence.
           by rewrite lookup_insert_ne.
      * destruct (decide (Some c' = Some c)) as [[= ->]|Hne]; [|done].
        by rewrite Hc'.
    + by rewrite decide_False.
Qed.

(** X18. In the summary of [get_export_summary] the three counts lie
    between 0 and the number of leads; a category is a key of
    [categories] exactly when it is not empty and some lead has it, and
    its value is the number of leads that have it; the average rating is
    the integer 0 exactly when no lead has a rating; and for the empty
    list everything is 0 and [categories] is empty. *)
Theorem export_summary_counts leads :
  let s := get_export_summary percent rounded_mean leads in
  sm_total_leads s = Z.of_nat (length leads) ∧
  (0 ≤ sm_leads_with_email s ≤ sm_total_leads s)%Z ∧
  (0 ≤ sm_leads_with_phone s ≤ sm_total_leads s)%Z ∧
  (0 ≤ sm_leads_with_website s ≤ sm_total_leads s)%Z ∧
  (∀ c, sm_categories s !! c =
        if PyStr.truthy c && bool_decide (category_count c leads ≠ 0)
        then Some (Z.of_nat (category_count c leads))
        else None) ∧
  (sm_average_rating s = NInt 0 ↔ ∀ lead, lead ∈ leads → rating lead = None) ∧
  (leads = [] →
   sm_email_coverage s = NInt 0 ∧ sm_phone_coverage s = NInt 0 ∧
   sm_website_coverage s = NInt 0 ∧ sm_categories s = ∅).
Proof.
  cbn zeta. unfold get_export_summary.
  cbn [sm_total_leads sm_leads_with_email sm_leads_with_phone
       sm_leads_with_website sm_categories sm_average_rating
       sm_email_coverage sm_phone_coverage sm_website_coverage].
  split; [reflexivity|].
  split; [apply count_with_bounds|].
  split; [apply count_with_bounds|].
  split; [apply count_with_bounds|].
  split; [|split].
  - intros c. unfold count_categories. rewrite count_categories_from.
    rewrite lookup_empty.
    destruct (PyStr.truthy c); [|reflexivity]. cbn [andb default].
    destruct (category_count c leads) eqn:Hk.
    + by rewrite bool_decide_eq_false_2 by lia.
    + by rewrite bool_decide_eq_true_2 by lia.
  - split.
    + intros Havg lead Hin.
      destruct (omap rating leads) as [|x xs] eqn:Hr; [|discriminate].
      destruct (rating lead) as [x|] eqn:Hx; [|reflexivity].
      assert (x ∈ omap rating leads) as Hin'
        by (apply list_elem_of_omap; eauto).
      rewrite Hr in Hin'. by apply elem_of_nil in Hin'.
    + intros Hnone.
      destruct (omap rating leads) as [|x xs] eqn:Hr; [reflexivity|].
      assert (x ∈ omap rating leads) as Hin by (rewrite Hr; left).
      apply list_elem_of_omap in Hin as (lead & Hin & Hx).
      rewrite (Hnone lead Hin) in Hx. discriminate.
  - intros ->. done.
Qed.

Lemma issues_from_spec i leads issue :
  issue ∈ issues_from email_matches i leads ↔
  ∃ j lead,
    leads !! j = Some lead ∧
    lead_issues email_matches lead ≠ [] ∧
    issue = {| lead_index := i + j; lead_name := name lead;
               issue_texts := lead_issues email_matches lead |}.
Proof.
  revert i. induction leads as [|lead leads IH]; intros i.
  - cbn. split; [by intros ?%elem_of_nil|]. by intros (j & l & ? & _).
  - cbn [issues_from].
    assert (Hrest :
      issue ∈ issues_from email_matches (S i) leads ↔
      ∃ j lead',
        (lead :: leads) !! S j = Some lead' ∧
        lead_issues email_matches lead' ≠ [] ∧
        issue = {| lead_index := i + S j; lead_name := name lead';
                   issue_texts := lead_issues email_matches lead' |}).
    { rewrite IH. cbn [lookup list_lookup].
      split; intros (j & l & Hj & Hne & ->); exists j, l;
        (split; [done|]); (split; [done|]); f_equal; lia. }
    destruct (lead_issues email_matches lead) as [|t ts] eqn:Hl.
    + rewrite Hrest. split.
      * intros (j & l & Hj & Hne & ->). by exists (S j), l.
      * intros ([|j] & l & Hj & Hne & ->).
        -- cbn in Hj. injection Hj as <-. by rewrite Hl in Hne.
        -- by exists j, l.
    + rewrite elem_of_cons, Hrest. split.
      * intros [->|(j & l & Hj & Hne & ->)].
        -- exists 0, lead. rewrite Hl, Nat.add_0_r. done.
        -- by exists (S j), l.
      * intros ([|j] & l & Hj & Hne & ->).
        -- left. cbn in Hj. injection Hj as <-.
           by rewrite Hl, Nat.add_0_r.
        -- right. by exists j, l.
Qed.

Lemma issues_from_length i leads :
  length (issues_from email_matches i leads) ≤ length leads.
Proof.
  revert i. induction leads as [|lead leads IH]; intros i; [done|].
  cbn [issues_from length].
  destruct (lead_issues email_matches lead); cbn [length];
    specialize (IH (S i)); lia.
Qed.

Lemma issues_from_sorted i leads :
  StronglySorted lt (lead_index <$> issues_from email_matches i leads) ∧
  Forall (λ issue, i ≤ lead_index issue) (issues_from email_matches i leads).
Proof.
  revert i. induction leads as [|lead leads IH]; intros i.
  - split; constructor.
  - cbn [issues_from]. destruct (IH (S i)) as [Hsorted Hge].
    assert (Hge' : Forall (λ issue, i ≤ lead_index issue)
                     (issues_from email_matches (S i) leads)).
    { eapply Forall_impl; [exact Hge|]. cbn. intros; lia. }
    destruct (lead_issues email_matches lead); [done|].
    split.
    + cbn [fmap list_fmap lead_index]. constructor; [exact Hsorted|].
      apply Forall_fmap. eapply Forall_impl; [exact Hge|]. cbn. intros; lia.
    + constructor; [cbn; lia|exact Hge'].
Qed.

(** X19. [validate_leads_data] reports exactly the leads that have an
    issue, once each and in the order of the list: every entry carries the
    index, the name and the issues of a lead whose list of issues is not
    empty, every such lead has its entry, the indices increase, and
    [leads_with_issues] is the number of entries, at most the number of
    leads. *)
Theorem validate_leads_report leads :
  let v := validate_leads_data percent email_matches leads in
  vr_total_leads v = Z.of_nat (length leads) ∧
  vr_leads_with_issues v = Z.of_nat (length (vr_issues v)) ∧
  (0 ≤ vr_leads_with_issues v ≤ vr_total_leads v)%Z ∧
  (∀ issue, issue ∈ vr_issues v ↔
            ∃ lead,
              leads !! lead_index issue = Some lead ∧
              lead_issues email_matches lead ≠ [] ∧
              lead_name issue = name lead ∧
              issue_texts issue = lead_issues email_matches lead) ∧
  StronglySorted lt (lead_index <$> vr_issues v) ∧
  (leads = [] → vr_issues v = [] ∧ vr_data_quality_score v = NInt 0).
Proof.
  cbn zeta. unfold validate_leads_data.
  cbn [vr_total_leads vr_leads_with_issues vr_issues vr_data_quality_score].
  split; [reflexivity|]. split; [reflexivity|]. split.
  { pose proof (issues_from_length 0 leads). lia. }
  split; [|split].
  - intros issue. rewrite issues_from_spec. split.
    + intros (j & lead & Hj & Hne & ->). by exists lead.
    + intros (lead & Hj & Hne & Hname & Htexts).
      exists (lead_index issue), lead. split; [done|]. split; [done|].
      destruct issue. cbn in *. by subst.
  - apply issues_from_sorted.
  - by intros ->.
Qed.

(** a lead with an empty name has the issue [Missing name], and a lead
    that has a name and nothing else has none *)
Lemma lead_issues_name lead :
  ("Missing name"%string ∈ lead_issues email_matches lead ↔
   name lead = EmptyString) ∧
  (name lead ≠ EmptyString → email lead = None → phone lead = None →
   website lead = None → lead_issues email_matches lead = []).
Proof.
  unfold lead_issues. split.
  - destruct (name lead) as [|c n]; cbn [PyStr.truthy negb].
    + split; [done|]. intros _. set_solver.
    + split; [|done]. cbn [app]. intros Hin.
      repeat (first [apply elem_of_app in Hin as [Hin|Hin]
                    |case_match; cbn in Hin]);
        try (by apply elem_of_nil in Hin);
        by apply list_elem_of_singleton in Hin.
  - intros Hname -> -> ->. destruct (name lead); done.
Qed.

(** X20. A name text of white space passes the scraper and is caught by
    the validation: the element yields a record, the name of its lead is
    empty, and [validate_leads_data] reports that lead, wherever it stands
    in a list, with the issue [Missing name]. *)
Theorem blank_name_is_flagged element text d :
  has_name_text element text →
  PyStr.strip text = EmptyString →
  _extract_business_data element = Some d →
  name (lead_of d) = EmptyString ∧
  ∀ leads i,
    leads !! i = Some (lead_of d) →
    ∃ issue,
      issue ∈ vr_issues (validate_leads_data percent email_matches leads) ∧
      lead_index issue = i ∧
      "Missing name"%string ∈ issue_texts issue.
Proof.
  intros (node & Hq & Htext & _) Hblank Hd.
  assert (Hname : bd_name d = EmptyString).
  { destruct (extract_some_name _ _ Hd)
      as (text' & (node' & Hq' & Htext' & _) & ->).
    rewrite Hq in Hq'. injection Hq' as <-.
    rewrite Htext in Htext'. injection Htext' as <-. exact Hblank. }
  split; [exact Hname|].
  intros leads i Hi.
  assert (Hmissing : "Missing name"%string ∈
                     lead_issues email_matches (lead_of d))
    by (by apply lead_issues_name).
  exists {| lead_index := i; lead_name := name (lead_of d);
            issue_texts := lead_issues email_matches (lead_of d) |}.
  split; [|done].
  unfold validate_leads_data. cbn [vr_issues].
  apply issues_from_spec. exists i, (lead_of d).
  split; [done|]. split; [|done].
  intros Hnil. rewrite Hnil in Hmissing. by apply elem_of_nil in Hmissing.
Qed.

End ReportFacts.

(** ** [get_business_details] *)
Section PlaceDetailsFacts.

Lemma read_details_keys s place_id details :
  read_details s place_id = Ok details →
  (query_hours s = Ok None ∧ details = ∅) ∨
  (∃ node text,
      query_hours s = Ok (Some node) ∧ text_content node = Ok text ∧
      details = {[ "hours"%string := strip_or_none text ]}).
Proof.
  unfold read_details. unfold mbind, res_bind, mret, res_ret.
  destruct (goto _ _); [|discriminate].
  destruct (query_hours s) as [[node|]|];
    [|intros [= <-]; by left|discriminate].
  destruct (text_content node) as [text|] eqn:Htext; [|discriminate].
  intros [= <-]. right. by exists node, text.
Qed.

(** X21. [get_business_details] raises only what the start or the closing
    of the browser raises; a failure of the navigation or of the reading
    gives [None]; a dictionary returned has no key but [hours], and has
    that key exactly when the page has an element for the hours; and a
    browser that started is closed as the last call on every path. *)
Theorem business_details_outcome s place_id :
  (∀ e, init_browser (place_browser s) = Raise e →
        get_business_details s place_id = (Raise e, [EvInitBrowser])) ∧
  (is_ok (init_browser (place_browser s)) = true →
   last (get_business_details s place_id).2 = Some EvCloseBrowser ∧
   (∀ e, close_browser (place_browser s) = Raise e →
         (get_business_details s place_id).1 = Raise e) ∧
   (is_ok (close_browser (place_browser s)) = true →
    (get_business_details s place_id).1 =
      Ok match read_details s place_id with
         | Ok details => Some details
         | Raise _ => None
         end)) ∧
  (∀ details,
      (get_business_details s place_id).1 = Ok (Some details) →
      dom details ⊆ {[ "hours"%string ]} ∧
      (is_Some (details !! "hours"%string) ↔
       ∃ node, query_hours s = Ok (Some node))).
Proof.
  unfold get_business_details. split; [|split].
  - by intros e ->.
  - destruct (init_browser (place_browser s)); [|discriminate]. intros _.
    split; [|split].
    + destruct (close_browser (place_browser s)); cbn [snd];
        by destruct (is_ok _).
    + by intros e ->.
    + by destruct (close_browser (place_browser s)).
  - intros details.
    destruct (init_browser (place_browser s)); [|discriminate].
    destruct (close_browser (place_browser s)); [|discriminate].
    destruct (read_details s place_id) as [details'|] eqn:Hread;
      [|discriminate].
    intros [= <-].
    apply read_details_keys in Hread
      as [[Hq ->]|(node & text & Hq & _ & ->)]; rewrite Hq.
    + split; [set_solver|]. rewrite lookup_empty.
      split; [by intros []|by intros [? [=]]].
    + split; [rewrite dom_singleton_L; set_solver|].
      rewrite lookup_singleton_eq. split; eauto.
Qed.

End PlaceDetailsFacts.

(** ** What [POST /export] answers *)
Section ExportAnswers.
Context `{PyRuntime}.

Lemma sheets_filename_kept w stamp :
  csv_filename w (Some ("leads_for_sheets_" +:+ stamp +:+ ".csv")) =
  "leads_for_sheets_" +:+ stamp +:+ ".csv".
Proof.
  assert (Hend : PyStr.endswith
            ("leads_for_sheets_" +:+ stamp +:+ ".csv") ".csv" = true)
    by (do 2 apply endswith_app; apply endswith_refl).
  unfold csv_filename. cbn [PyStr.opt_truthy PyStr.or_empty].
  by rewrite (truthy_of_endswith _ Hend), Hend.
Qed.

(** X22. For a stored identifier, [POST /export] with format [csv]
    answers with the path that [export_to_csv] returns for the stored
    leads and the requested file name, or with a 500 that carries the
    exception of the export; with format [sheets] and a URL it answers
    success exactly when the CSV file with the time-stamped name can be
    opened for writing, although nothing is sent to the URL. *)
Theorem export_leads_answers export_manager request app leads :
  leads_storage app !! ex_scrape_id request = Some leads →
  (format request = "csv"%string →
   (export_leads export_manager request app).1 =
   match (export_to_csv export_manager leads (filename request)
            (world app)).1 with
   | Ok path => Ok {| message := "Exported to " +:+ path;
                      file_path := Some path |}
   | Raise e =>
       Raise (HTTPException 500 ("Export failed: " +:+ exc_str e))
   end) ∧
  (format request = "sheets"%string →
   PyStr.opt_truthy (sheets_url request) = true →
   (export_leads export_manager request app).1 =
   if is_ok (open_for_write (world app)
               (path_join (export_dir export_manager)
                  ("leads_for_sheets_" +:+ now (world app) +:+ ".csv")))
   then Ok {| message := "Successfully exported to Google Sheets";
              file_path := None |}
   else Raise (HTTPException 500
                 ("Export failed: " +:+
                  http_exception_str 500
                    "Failed to export to Google Sheets"))).
Proof.
  intros Hleads. split.
  - intros Hformat.
    unfold export_leads, try_or_500, export_leads_body, in_world. run_ste.
    rewrite Hleads, Hformat. cbn [String.eqb Ascii.eqb Bool.eqb].
    by destruct (export_to_csv _ _ _ _) as [[path|e] w'].
  - intros Hformat Hurl.
    unfold export_leads, try_or_500, export_leads_body, in_world, raise.
    run_ste. rewrite Hleads, Hformat, Hurl.
    cbn [String.eqb Ascii.eqb Bool.eqb negb].
    unfold export_to_sheets. rewrite export_to_csv_eq. cbn zeta.
    rewrite sheets_filename_kept.
    by destruct (open_for_write (world app) _).
Qed.

End ExportAnswers.

(* ===================================================================== *)
(** * Part III: the properties at concrete inputs                         *)
(* ===================================================================== *)

(** The three patterns on sample texts. *)
Example rating_re_45 :
  Re.group_from 0 <$> Re.search Re.rating_re "4.5 stars" = Some "4.5"%string.
Proof. reflexivity. Qed.

Example rating_re_two_dots :
  Re.group_from 0 <$> Re.search Re.rating_re "rated 4..5" = Some "4."%string.
Proof. reflexivity. Qed.

Example reviews_re_commas :
  Re.group_from 0 <$>
    Re.search Re.reviews_re (PyStr.remove_char ","%char "(1,234 reviews)") =
  Some "1234"%string.
Proof. reflexivity. Qed.

Example place_re_id :
  Re.group_from 6 <$>
    Re.search Re.place_re "https://www.google.com/maps/place/Cafe+Uno/@41" =
  Some "Cafe+Uno"%string.
Proof. reflexivity. Qed.

Example path_join_relative : path_join "exports" "out.csv" = "exports/out.csv"%string.
Proof. reflexivity. Qed.

Example path_join_absolute : path_join "exports" "/tmp/out.csv" = "/tmp/out.csv"%string.
Proof. reflexivity. Qed.

(** An element with a detail page: what was read before [go_back] failed
    stays in the record. *)
Example detailed_record :
  @_extract_business_data Demo.literal_runtime Demo.detailed =
  Some {| bd_name := "Cafe Uno";
          bd_address := Some "Via Roma 1"%string;
          bd_phone := Some "06 1234"%string;
          bd_website := Some "https://uno.example"%string;
          bd_rating := None;
          bd_reviews_count := None;
          bd_category := Some "Cafe"%string;
          bd_google_maps_url :=
            Some "https://www.google.com/maps/place/Cafe+Uno/@41.9,12.5"%string;
          bd_place_id := Some "Cafe+Uno"%string;
          bd_coordinates := None |}.
Proof. vm_compute. reflexivity. Qed.

(** A name text of white space only is a text: the element yields a
    record, whose stripped name is empty. *)
Example blank_name_text :
  bd_name <$> @_extract_business_data Demo.literal_runtime
                (Demo.listing "   " "4.5 stars" "12") =
  Some EmptyString.
Proof. vm_compute. reflexivity. Qed.

(** A scrape of two pages that show the same four elements, two of them
    with the same name and one without a name, returns two leads. *)
Lemma cafes_run :
  (@scrape_businesses Demo.literal_runtime
     (Demo.browser [Demo.cafes; Demo.cafes]) "cafe" "Rome" 20).1 =
  Ok Demo.cafe_leads.
Proof. vm_compute. reflexivity. Qed.

(** C1 at an unknown [scrape_id]: the 404 of [POST /enrich] comes out as
    a 500. *)
Lemma handlers_raise_500_witness :
  (@enrich_leads Demo.literal_runtime (fun leads _ => Ok leads)
     {| er_scrape_id := "nope"; hunter_api_key := "key" |}
     Demo.cafe_app).1 =
  Raise (HTTPException 500 "Enrichment failed: 404: Scrape ID not found").
Proof.
  pose proof (proj1 (proj2 (@handlers_raise_500 Demo.literal_runtime)))
    as Henrich.
  destruct (Henrich (fun leads _ => Ok leads)
              {| er_scrape_id := "nope"; hunter_api_key := "key" |}
              Demo.cafe_app) as (_ & _ & H404).
  apply H404. vm_compute. reflexivity.
Defined.

(** C2 at the cafes: the second element repeats the name of the first and
    is not appended, and the names of the result are distinct. *)
Lemma scrape_businesses_dedup_witness :
  (@scrape_businesses Demo.literal_runtime
     (Demo.browser [Demo.cafes; Demo.cafes]) "cafe" "Rome" 20).1 =
  Ok Demo.cafe_leads ∧
  NoDup (name <$> Demo.cafe_leads).
Proof.
  split; [exact cafes_run|].
  exact (proj2 (proj2 (@scrape_businesses_dedup Demo.literal_runtime))
           _ _ _ _ _ cafes_run).
Defined.

(** C3 at [max_results = 9]: no cycle runs. *)
Lemma scroll_loop_bounded_witness :
  (1 ≤ 9)%Z ∧
  ∃ head tail,
    (@scrape_businesses Demo.literal_runtime
       (Demo.browser [Demo.cafes; Demo.cafes]) "cafe" "Rome" 9).2 =
    head ++ tail ∧
    head `prefix_of` Spec.setup_calls "cafe" "Rome" ∧
    tail `suffix_of` [EvCloseBrowser].
Proof.
  split; [lia|].
  destruct (@scroll_loop_bounded Demo.literal_runtime
              (Demo.browser [Demo.cafes; Demo.cafes]) "cafe" "Rome" 9
              ltac:(lia))
    as [(head & ks & tail & Htr & Hhead & Htail & _ & Hnone) _].
  rewrite (Hnone ltac:(lia)) in Htr.
  exists head, tail. split; [exact Htr|]. split; [exact Hhead|exact Htail].
Defined.

(** C4 as stated fails for a negative [max_results]: the empty list has
    more than [-1] elements. *)
Lemma scrape_negative_max_results :
  ∃ leads,
    (@scrape_businesses Demo.literal_runtime
       (Demo.browser [Demo.cafes]) "cafe" "Rome" (-1)).1 = Ok leads ∧
    ¬ (Z.of_nat (length leads) ≤ -1)%Z.
Proof.
  exists []. split; [vm_compute; reflexivity|]. simpl. lia.
Qed.

(** C4 as amended, at the cafes with [max_results = 20]. *)
Lemma scrape_at_most_max_results_witness :
  (0 ≤ 20)%Z ∧
  (@scrape_businesses Demo.literal_runtime
     (Demo.browser [Demo.cafes; Demo.cafes]) "cafe" "Rome" 20).1 =
  Ok Demo.cafe_leads ∧
  (Z.of_nat (length Demo.cafe_leads) ≤ 20)%Z.
Proof.
  split; [lia|]. split; [exact cafes_run|].
  exact (proj1 (@scrape_at_most_max_results Demo.literal_runtime)
           _ _ _ 20%Z _ ltac:(lia) cafes_run).
Defined.


(** C6 at the fresh application. *)
Lemma scrape_then_get_witness :
  ∃ response app',
    @scrape_leads Demo.literal_runtime
      (Demo.browser [Demo.cafes; Demo.cafes]) "id-1" (Demo.cafe_request 20)
      Demo.fresh_app = (Ok response, app') ∧
    (get_leads "id-1" (handle (DeleteLeads "id-2") app')).1 =
    Ok {| lr_scrape_id := "id-1"; lr_leads := sr_leads response;
          lr_total := Z.of_nat (length (sr_leads response)) |}.
Proof.
  destruct (@scrape_leads Demo.literal_runtime
              (Demo.browser [Demo.cafes; Demo.cafes]) "id-1"
              (Demo.cafe_request 20) Demo.fresh_app)
    as [[response|e] app'] eqn:Hrun.
  - exists response, app'. split; [reflexivity|].
    destruct (scrape_then_get _ _ _ _ _ _ Hrun) as (Hid & _ & _ & Hlater).
    rewrite Hid in Hlater.
    apply (Hlater [DeleteLeads "id-2"]).
    apply Forall_singleton. cbn [leaves]. discriminate.
  - exfalso. vm_compute in Hrun. discriminate.
Defined.


(** C8 at the application with one batch. *)
Lemma leads_404_and_delete_witness :
  (@get_leads Demo.literal_runtime "id-2" Demo.cafe_app).1 =
    Raise (HTTPException 404 "Scrape ID not found") ∧
  leads_storage (@delete_leads Demo.literal_runtime "id-1" Demo.cafe_app).2 =
    delete "id-1"%string (leads_storage Demo.cafe_app).
Proof.
  split.
  - apply (proj1 (@leads_404_and_delete Demo.literal_runtime
                    "id-2" Demo.cafe_app)).
    vm_compute. set_solver.
  - apply (proj2 (proj2 (proj2 (proj2 (proj2
             (@leads_404_and_delete Demo.literal_runtime
                "id-1" Demo.cafe_app)))))).
    vm_compute. set_solver.
Defined.


(** C10 at an export directory that cannot be written to: the stub
    returns [False] and the handler answers 500. *)
Lemma export_to_sheets_stub_witness :
  (@export_to_sheets Demo.literal_runtime Demo.locked_manager
     Demo.cafe_leads "https://docs.google.com/spreadsheets/d/1"
     Demo.outside).1 = Ok false ∧
  (@export_leads Demo.literal_runtime Demo.locked_manager
     Demo.sheets_request Demo.cafe_app).1 =
  Raise (HTTPException 500
           "Export failed: 500: Failed to export to Google Sheets").
Proof.
  assert (Hfalse :
    (@export_to_sheets Demo.literal_runtime Demo.locked_manager
       Demo.cafe_leads "https://docs.google.com/spreadsheets/d/1"
       Demo.outside).1 = Ok false) by (vm_compute; reflexivity).
  split; [exact Hfalse|].
  apply (proj2 (proj2 (@export_to_sheets_stub Demo.literal_runtime
                         Demo.locked_manager Demo.cafe_leads
                         "https://docs.google.com/spreadsheets/d/1"
                         Demo.outside))
           Demo.sheets_request Demo.cafe_app);
    first [exact Hfalse | vm_compute; reflexivity].
Defined.

(** ** The further properties at concrete inputs *)

(** X1 at the cafes. *)
Lemma scrape_businesses_result_witness :
  (@scrape_businesses Demo.literal_runtime
     (Demo.browser [Demo.cafes; Demo.cafes]) "cafe" "Rome" 20).1 =
  Ok Demo.cafe_leads ∧
  Demo.cafe_leads =
  take (Z.to_nat 20)
    (first_by_name ∅
       (records_of
          (shown (page_of (Demo.browser [Demo.cafes; Demo.cafes]))
             (cycle_budget 20)))).
Proof.
  split; [exact cafes_run|].
  exact (@scrape_businesses_result Demo.literal_runtime _ _ _ _ _ cafes_run).
Defined.

(** X2 at a request for nine results. *)
Lemma scrape_below_ten_is_empty_witness :
  ScrapeRequest_valid (Demo.cafe_request 9) ∧
  ∃ response app',
    @scrape_leads Demo.literal_runtime
      (Demo.browser [Demo.cafes; Demo.cafes]) "id-9" (Demo.cafe_request 9)
      Demo.fresh_app = (Ok response, app') ∧
    sr_leads response = [] ∧ sr_total_found response = 0%Z.
Proof.
  assert (Hvalid : ScrapeRequest_valid (Demo.cafe_request 9))
    by (unfold ScrapeRequest_valid; cbn; lia).
  split; [exact Hvalid|].
  destruct (@scrape_leads Demo.literal_runtime
              (Demo.browser [Demo.cafes; Demo.cafes]) "id-9"
              (Demo.cafe_request 9) Demo.fresh_app)
    as [[response|e] app'] eqn:Hrun.
  - exists response, app'. split; [reflexivity|].
    assert (Hnine : (max_results (Demo.cafe_request 9) ≤ 9)%Z)
      by (cbn; lia).
    apply (proj2 (@scrape_below_ten_is_empty Demo.literal_runtime)
             _ _ _ _ _ _ Hnine Hrun).
  - exfalso. vm_compute in Hrun. discriminate.
Defined.

(** X3 at a browser whose calls all return. *)
Lemma scrape_businesses_raises_witness :
  ∃ leads,
    (@scrape_businesses Demo.literal_runtime
       (Demo.browser [Demo.cafes; [Sample.blank]]) "cafe" "Rome" 20).1 =
    Ok leads.
Proof.
  exact (proj2 (@scrape_businesses_raises Demo.literal_runtime
                  (Demo.browser [Demo.cafes; [Sample.blank]])
                  "cafe" "Rome" 20)
           eq_refl eq_refl eq_refl eq_refl (fun i _ => eq_refl)).
Defined.

(** X4 at the cafes. *)
Lemma browser_closed_once_witness :
  ∃ calls,
    (@scrape_businesses Demo.literal_runtime
       (Demo.browser [Demo.cafes; Demo.cafes]) "cafe" "Rome" 20).2 =
      EvInitBrowser :: (calls ++ [EvCloseBrowser]) ∧
    (EvCloseBrowser ∉ calls) ∧ (EvInitBrowser ∉ calls).
Proof.
  exact (proj2 (@browser_closed_once Demo.literal_runtime
                  (Demo.browser [Demo.cafes; Demo.cafes])
                  "cafe" "Rome" 20) eq_refl).
Defined.

(** X5 at the first lead of the cafes. *)
Lemma scraper_leaves_email_and_coordinates_witness :
  Demo.uno ∈ Demo.cafe_leads ∧
  email Demo.uno = None ∧ coordinates Demo.uno = None.
Proof.
  assert (Hin : Demo.uno ∈ Demo.cafe_leads) by (by left).
  split; [exact Hin|].
  exact (@scraper_leaves_email_and_coordinates Demo.literal_runtime
           _ _ _ _ _ _ cafes_run Hin).
Defined.


(** X7 at a result element with a detail page. *)
Lemma place_id_from_url_witness :
  ∃ d p u before rest,
    @_extract_business_data Demo.literal_runtime Demo.detailed = Some d ∧
    bd_place_id d = Some p ∧
    bd_google_maps_url d = Some u ∧
    PyStr.chars u = before ++ PyStr.chars "place/" ++ rest ∧
    p = PyStr.str
          (PyStr.take_while (λ c, negb (bool_decide (c = "/"%char))) rest).
Proof.
  destruct (@_extract_business_data Demo.literal_runtime Demo.detailed)
    as [d|] eqn:Hd.
  - assert (Hp : bd_place_id d = Some "Cafe+Uno"%string).
    { pose proof Hd as Hd'. vm_compute in Hd'. by injection Hd' as <-. }
    destruct (proj1 (place_id_from_url _ _ Hd) _ Hp)
      as (u & before & rest & Hu & Hchars & Hcut & _).
    by exists d, "Cafe+Uno"%string, u, before, rest.
  - exfalso. vm_compute in Hd. discriminate.
Defined.


(** X9 at the fresh application. *)
Lemma scrape_leads_frame_witness :
  ∃ response app',
    @scrape_leads Demo.literal_runtime
      (Demo.browser [Demo.cafes; Demo.cafes]) "id-1" (Demo.cafe_request 20)
      Demo.fresh_app = (Ok response, app') ∧
    world app' = world Demo.fresh_app ∧
    leads_storage app' !! "id-2"%string =
      leads_storage Demo.fresh_app !! "id-2"%string.
Proof.
  destruct (@scrape_leads Demo.literal_runtime
              (Demo.browser [Demo.cafes; Demo.cafes]) "id-1"
              (Demo.cafe_request 20) Demo.fresh_app)
    as [[response|e] app'] eqn:Hrun.
  - exists response, app'. split; [reflexivity|].
    destruct (proj2 (@scrape_leads_frame Demo.literal_runtime _ _ _ _)
                _ _ Hrun) as (Hworld & _ & Hother).
    split; [exact Hworld|]. apply Hother. discriminate.
  - exfalso. vm_compute in Hrun. discriminate.
Defined.

(** X10 at the application with one batch. *)
Lemma enrich_leads_effect_witness :
  ∃ response app',
    @enrich_leads Demo.literal_runtime Sample.enricher Sample.enrich_request
      Demo.cafe_app = (Ok response, app') ∧
    world app' = world Demo.cafe_app ∧
    dom (leads_storage app') = dom (leads_storage Demo.cafe_app) ∧
    (0 ≤ enrichment_count response ≤
     Z.of_nat (length (enriched_leads response)))%Z.
Proof.
  destruct (@enrich_leads Demo.literal_runtime Sample.enricher
              Sample.enrich_request Demo.cafe_app)
    as [[response|e] app'] eqn:Hrun.
  - exists response, app'. split; [reflexivity|].
    destruct (proj1 (@enrich_leads_effect Demo.literal_runtime _ _ _)
                _ _ Hrun) as (_ & _ & _ & Hdom & Hworld & _ & Hcount).
    split; [exact Hworld|]. split; [exact Hdom|exact Hcount].
  - exfalso. vm_compute in Hrun. discriminate.
Defined.

(** X11 at the application with one batch. *)
Lemma enrich_then_get_witness :
  ∃ response app',
    @enrich_leads Demo.literal_runtime Sample.enricher Sample.enrich_request
      Demo.cafe_app = (Ok response, app') ∧
    (get_leads "id-1" app').1 =
    Ok {| lr_scrape_id := "id-1"; lr_leads := enriched_leads response;
          lr_total := Z.of_nat (length (enriched_leads response)) |}.
Proof.
  destruct (@enrich_leads Demo.literal_runtime Sample.enricher
              Sample.enrich_request Demo.cafe_app)
    as [[response|e] app'] eqn:Hrun.
  - exists response, app'. split; [reflexivity|].
    pose proof (@enrich_then_get Demo.literal_runtime _ _ _ _ _ Hrun)
      as Hget.
    cbn [Sample.enrich_request er_scrape_id] in Hget. by rewrite Hget.
  - exfalso. vm_compute in Hrun. discriminate.
Defined.

(** X13 at a request that is no [DELETE]. *)
Lemma storage_keys_witness :
  keeps_keys (@GetLeads Demo.literal_runtime "id-1") ∧
  dom (leads_storage Demo.cafe_app) ⊆
  dom (leads_storage (handle (GetLeads "id-1") Demo.cafe_app)).
Proof.
  split; [exact I|].
  exact (proj2 (@storage_keys Demo.literal_runtime (GetLeads "id-1")
                  Demo.cafe_app) I).
Defined.

(** X14 at the application with one batch. *)
Lemma delete_then_gone_witness :
  "id-1"%string ∈ dom (leads_storage Demo.cafe_app) ∧
  (get_leads "id-1"
     (handle_all [GetLeads "id-1"; DeleteLeads "id-2"]
        (@delete_leads Demo.literal_runtime "id-1" Demo.cafe_app).2)).1 =
  Raise (HTTPException 404 "Scrape ID not found").
Proof.
  assert (Hin : "id-1"%string ∈ dom (leads_storage Demo.cafe_app)).
  { apply elem_of_dom. exists Demo.cafe_leads. vm_compute. reflexivity. }
  split; [exact Hin|].
  apply (@delete_then_gone Demo.literal_runtime "id-1" Demo.cafe_app
           [GetLeads "id-1"; DeleteLeads "id-2"] Hin).
  repeat constructor; cbn [added_by]; apply not_elem_of_empty.
Defined.

(** X15 at a file name with the extension [.xlsx]. *)
Lemma export_to_excel_writes_csv_witness :
  ∃ path w',
    @export_to_excel Demo.literal_runtime Demo.manager Demo.cafe_leads
      (Some "report.xlsx"%string) Demo.outside = (Ok path, w') ∧
    path = "exports/report.csv"%string ∧
    PyStr.endswith path ".xlsx" = false ∧
    files w' !! path = Some (headers :: map row_of Demo.cafe_leads).
Proof.
  destruct (@export_to_excel Demo.literal_runtime Demo.manager
              Demo.cafe_leads (Some "report.xlsx"%string) Demo.outside)
    as [[path|e] w'] eqn:Hrun.
  - exists path, w'. split; [reflexivity|].
    destruct (proj2 (proj2 (@export_to_excel_writes_csv
                              Demo.literal_runtime _ _ _ _)) _ _ Hrun)
      as (Hpath & _ & Hxlsx & Hfile).
    split; [rewrite Hpath; vm_compute; reflexivity|].
    split; [exact Hxlsx|exact Hfile].
  - exfalso. vm_compute in Hrun. discriminate.
Defined.

(** X16 at the cafes, for a file name without extension. *)
Lemma export_to_json_file_witness :
  ∃ path w',
    @export_to_json Demo.literal_runtime Demo.manager Demo.cafe_leads
      (Some "out"%string) Sample.json_outside = (Ok path, w') ∧
    PyStr.endswith path ".json" = true ∧
    json_files w' !! path = Some (map lead_dict Demo.cafe_leads).
Proof.
  destruct (@export_to_json Demo.literal_runtime Demo.manager
              Demo.cafe_leads (Some "out"%string) Sample.json_outside)
    as [[path|e] w'] eqn:Hrun.
  - exists path, w'. split; [reflexivity|].
    destruct (proj1 (@export_to_json_file Demo.literal_runtime _ _ _ _)
                _ _ Hrun) as (_ & Hend & Hfile & _).
    split; [exact Hend|exact Hfile].
  - exfalso. vm_compute in Hrun. discriminate.
Defined.

(** X17 at the cafes: a second export under the same name. *)
Lemma export_to_csv_frame_witness :
  ∃ path w' w'',
    @export_to_csv Demo.literal_runtime Demo.manager Demo.cafe_leads
      (Some "out"%string) Demo.outside = (Ok path, w') ∧
    @export_to_csv Demo.literal_runtime Demo.manager [Demo.dos]
      (Some "out"%string) w' = (Ok path, w'') ∧
    files w'' =
      <[path := headers :: map row_of [Demo.dos]]> (files Demo.outside).
Proof.
  destruct (@export_to_csv Demo.literal_runtime Demo.manager
              Demo.cafe_leads (Some "out"%string) Demo.outside)
    as [[path|e] w'] eqn:Hrun.
  - destruct (proj2 (@export_to_csv_frame Demo.literal_runtime _ _ _ _)
                _ _ Hrun) as (_ & Hopen & _ & Hagain).
    destruct (Hagain [Demo.dos] w' tt) as (w'' & Hrun2 & Hfiles);
      [reflexivity|reflexivity| |].
    + rewrite Hopen.
      assert (Hpath : path = "exports/out.csv"%string).
      { pose proof Hrun as Hrun'. vm_compute in Hrun'.
        by injection Hrun' as <- _. }
      rewrite Hpath. vm_compute. reflexivity.
    + by exists path, w', w''.
  - exfalso. vm_compute in Hrun. discriminate.
Defined.

(** X18 at a list in which no lead has a rating. *)
Lemma export_summary_counts_witness :
  (∀ lead, lead ∈ [Demo.dos; Sample.dos_with_email] → rating lead = None) ∧
  sm_average_rating
    (get_export_summary Sample.percent Sample.rounded_mean
       [Demo.dos; Sample.dos_with_email]) = NInt 0 ∧
  sm_categories
    (get_export_summary Sample.percent Sample.rounded_mean
       [Demo.dos; Sample.dos_with_email]) !! "Bar"%string = Some 1%Z.
Proof.
  assert (Hnone : ∀ lead, lead ∈ [Demo.dos; Sample.dos_with_email] →
                          rating lead = None).
  { intros lead Hin. repeat apply elem_of_cons in Hin as [->|Hin];
      [reflexivity..|by apply elem_of_nil in Hin]. }
  split; [exact Hnone|].
  destruct (@export_summary_counts Demo.literal_runtime
              Sample.percent Sample.rounded_mean
              [Demo.dos; Sample.dos_with_email])
    as (_ & _ & _ & _ & Hcat & Havg & _).
  split; [by apply Havg|].
  rewrite Hcat. vm_compute. reflexivity.
Defined.

(** X19 at a list whose second lead has three issues. *)
Lemma validate_leads_report_witness :
  ∃ issue,
    issue ∈ vr_issues
              (validate_leads_data Sample.percent Sample.email_matches
                 [Demo.dos; Sample.poor]) ∧
    lead_index issue = 1 ∧
    issue_texts issue =
      [ "Missing name"; "Phone number too short";
        "Invalid website URL" ]%string.
Proof.
  destruct (@validate_leads_report Demo.literal_runtime
              Sample.percent Sample.email_matches [Demo.dos; Sample.poor])
    as (_ & _ & _ & Hissues & _).
  exists {| lead_index := 1; lead_name := name Sample.poor;
            issue_texts := lead_issues Sample.email_matches Sample.poor |}.
  split; [|split; [reflexivity|vm_compute; reflexivity]].
  apply Hissues. exists Sample.poor.
  split; [reflexivity|]. split; [vm_compute; discriminate|].
  split; reflexivity.
Defined.

(** X20 at an element whose name text is three spaces. *)
Lemma blank_name_is_flagged_witness :
  has_name_text Sample.blank "   " ∧
  PyStr.strip "   " = EmptyString ∧
  ∃ d,
    @_extract_business_data Demo.literal_runtime Sample.blank = Some d ∧
    name (lead_of d) = EmptyString ∧
    ∃ issue,
      issue ∈ vr_issues
                (validate_leads_data Sample.percent Sample.email_matches
                   [Demo.dos; lead_of d]) ∧
      lead_index issue = 1 ∧
      "Missing name"%string ∈ issue_texts issue.
Proof.
  assert (Htext : has_name_text Sample.blank "   ").
  { exists (Demo.text_node "   ").
    split; [reflexivity|]. split; [reflexivity|discriminate]. }
  assert (Hblank : PyStr.strip "   " = EmptyString)
    by (vm_compute; reflexivity).
  split; [exact Htext|]. split; [exact Hblank|].
  destruct (@_extract_business_data Demo.literal_runtime Sample.blank)
    as [d|] eqn:Hd.
  - exists d. split; [reflexivity|].
    destruct (@blank_name_is_flagged Demo.literal_runtime
                Sample.percent Sample.email_matches
                Sample.blank "   " d Htext Hblank Hd) as [Hname Hflag].
    split; [exact Hname|].
    apply (Hflag [Demo.dos; lead_of d] 1). reflexivity.
  - exfalso. vm_compute in Hd. discriminate.
Defined.

(** X21 at a place page with opening hours. *)
Lemma business_details_outcome_witness :
  ∃ details,
    (get_business_details Sample.place "Cafe+Uno").1 = Ok (Some details) ∧
    dom details ⊆ {[ "hours"%string ]} ∧
    is_Some (details !! "hours"%string).
Proof.
  destruct (business_details_outcome Sample.place "Cafe+Uno")
    as (_ & Hstarted & Hkeys).
  destruct (Hstarted eq_refl) as (_ & _ & Hreturns).
  specialize (Hreturns eq_refl).
  destruct (read_details Sample.place "Cafe+Uno") as [details|e] eqn:Hread;
    [|exfalso; vm_compute in Hread; discriminate].
  exists details. split; [exact Hreturns|].
  destruct (Hkeys details Hreturns) as [Hdom Hhours].
  split; [exact Hdom|]. apply Hhours. eexists. reflexivity.
Defined.

(** X22 at the application with one batch, for the format [csv]. *)
Lemma export_leads_answers_witness :
  leads_storage Demo.cafe_app !! "id-1"%string = Some Demo.cafe_leads ∧
  (@export_leads Demo.literal_runtime Demo.manager Sample.csv_request
     Demo.cafe_app).1 =
  Ok {| message := "Exported to exports/out.csv";
        file_path := Some "exports/out.csv"%string |}.
Proof.
  assert (Hstored : leads_storage Demo.cafe_app !! "id-1"%string =
                    Some Demo.cafe_leads) by (vm_compute; reflexivity).
  split; [exact Hstored|].
  rewrite (proj1 (@export_leads_answers Demo.literal_runtime Demo.manager
                    Sample.csv_request Demo.cafe_app Demo.cafe_leads
                    Hstored) eq_refl).
  vm_compute. reflexivity.
Defined.
